(** * The LZ77 decompressor of [analyze_lz77.py]

    A shallow embedding of [decompress_lz77(data, src_offset)] and the
    properties of it that the specification states.

    - [data] is a Python [bytes] object: a [list byte].
    - [out] is a Python [bytearray]: a [list byte] updated by index.
    - every index ([src_offset], [s], [d], [d - offset]) is a Python [int]:
      a [Z], with Python's rule that a negative index counts from the end
      and an index out of range raises [IndexError].
    - an exception ends the call: the [outcome] monad below. *)

From Stdlib Require Import ZArith Strings.Byte.
From stdpp Require Import base list.

Local Open Scope Z_scope.

(** ** Exceptions and outcomes *)

(** [IndexError] and [StructError] ([struct.error]) are the exceptions the
    interpreter can raise inside [decompress_lz77]. The next four are the
    error kinds named by the specification; no statement of the source
    raises them. [OSError] is what [open] and [read] raise in the script
    around the function when the file is missing or cannot be read. *)
Inductive exception : Set :=
  | IndexError
  | StructError
  | FormatError
  | SizeLimitExceededError
  | TruncatedStreamError
  | ReferenceOutOfRangeError
  | OSError.

(** What a call can do: return a value, raise, or still be running when the
    model's bound on the number of [while] iterations is used up. *)
Inductive outcome (A : Type) : Type :=
  | Return (a : A)
  | Raise (e : exception)
  | OutOfFuel.

Arguments Return {A} a.
Arguments Raise {A} e.
Arguments OutOfFuel {A}.

Definition bind {A B : Type} (m : outcome A) (k : A -> outcome B) : outcome B :=
  match m with
  | Return a => k a
  | Raise e => Raise e
  | OutOfFuel => OutOfFuel
  end.

Notation "'let*' x ':=' m 'in' k" := (bind m (fun x => k))
  (at level 10, x name, m at level 100, k at level 200).

(** ** Python sequences *)

Module Py.
Section Seq.
Context {A : Type}.

(** The position an index denotes, when it denotes one: [i] itself for
    [0 <= i < len], [len + i] for [-len <= i < 0]. *)
Definition norm_index (len i : Z) : option nat :=
  if (0 <=? i) && (i <? len) then Some (Z.to_nat i)
  else if (i <? 0) && (- len <=? i) then Some (Z.to_nat (len + i))
  else None.

(** [l[i]] *)
Definition getitem (l : list A) (i : Z) : outcome A :=
  match norm_index (Z.of_nat (length l)) i with
  | Some n =>
      match l !! n with
      | Some x => Return x
      | None => Raise IndexError
      end
  | None => Raise IndexError
  end.

(** [l[i] = x] *)
Definition setitem (l : list A) (i : Z) (x : A) : outcome (list A) :=
  match norm_index (Z.of_nat (length l)) i with
  | Some n => Return (<[n:=x]> l)
  | None => Raise IndexError
  end.

(** A slice bound, clamped to [0 .. len] as slicing does. *)
Definition clamp (len i : Z) : nat :=
  if i <? 0 then Z.to_nat (Z.max 0 (len + i)) else Z.to_nat (Z.min i len).

(** [l[a:b]] *)
Definition slice (l : list A) (a b : Z) : list A :=
  let len := Z.of_nat (length l) in
  let lo := clamp len a in
  let hi := clamp len b in
  take (hi - lo) (drop lo l).
End Seq.

(** [bytearray(n)] for [n >= 0] *)
Definition bytearray (n : Z) : list byte := replicate (Z.to_nat n) x00.

(** The integer value of a byte. *)
Definition int (b : byte) : Z := Z.of_N (Byte.to_N b).

(** The unsigned 32-bit integer whose little-endian bytes are
    [b0 b1 b2 b3]. *)
Definition u32_le (b0 b1 b2 b3 : byte) : Z :=
  Z.lor (int b0)
    (Z.lor (Z.shiftl (int b1) 8)
       (Z.lor (Z.shiftl (int b2) 16) (Z.shiftl (int b3) 24))).

(** [struct.unpack('<I', bs)[0]]: [struct.error] unless [bs] has exactly
    four bytes. *)
Definition unpack_u32_le (bs : list byte) : outcome Z :=
  match bs with
  | [b0; b1; b2; b3] => Return (u32_le b0 b1 b2 b3)
  | _ => Raise StructError
  end.

(** [range(start, stop, step)] for a positive [step], the only kind the
    script uses in this form: [start], [start + step], ... below [stop]. *)
Definition range (start stop step : Z) : list Z :=
  (fun k : nat => start + step * Z.of_nat k)
    <$> seq 0 (Z.to_nat ((stop - start + step - 1) / step)).
End Py.

(** ** The decoder *)

(** The local variables that the loops update. *)
Record state : Type := State { s : Z; d : Z; out : list byte }.

(** [length = ((byte1 >> 4) & 0xF) + 3] *)
Definition ref_length (byte1 : Z) : Z :=
  Z.land (Z.shiftr byte1 4) 15 + 3.

(** [offset = ((byte1 & 0xF) << 8) | byte2; offset += 1] *)
Definition ref_offset (byte1 byte2 : Z) : Z :=
  Z.lor (Z.shiftl (Z.land byte1 15) 8) byte2 + 1.

(** [for j in range(length): if d >= size: break; out[d] = out[d - offset]; d += 1]
    with [n] iterations left. *)
Fixpoint copy_loop (n : nat) (size offset : Z) (out : list byte) (d : Z)
  : outcome (list byte * Z) :=
  match n with
  | O => Return (out, d)
  | S n' =>
      if size <=? d then Return (out, d)
      else
        let* b := Py.getitem out (d - offset) in
        let* out' := Py.setitem out d b in
        copy_loop n' size offset out' (d + 1)
  end.

(** The body of the [for i] loop under [if flags & (1 << i)]. *)
Definition reference_unit (data : list byte) (size : Z) (st : state) : outcome state :=
  let* byte1 := Py.getitem data (s st) in
  let* byte2 := Py.getitem data (s st + 1) in
  let length := ref_length (Py.int byte1) in
  let offset := ref_offset (Py.int byte1) (Py.int byte2) in
  let* r := copy_loop (Z.to_nat length) size offset (out st) (d st) in
  Return (State (s st + 2) (snd r) (fst r)).

(** The body of the [for i] loop under [else]. *)
Definition literal_unit (data : list byte) (st : state) : outcome state :=
  let* b := Py.getitem data (s st) in
  let* out' := Py.setitem (out st) (d st) b in
  Return (State (s st + 1) (d st + 1) out').

(** [flags & (1 << i)] as a condition *)
Definition flag_set (flags : Z) (i : nat) : bool :=
  negb (Z.land flags (Z.shiftl 1 (Z.of_nat i)) =? 0).

(** [for i in range(7, -1, -1): ...] with the bits [n-1 .. 0] left. *)
Fixpoint bit_loop (n : nat) (data : list byte) (size flags : Z) (st : state)
  : outcome state :=
  match n with
  | O => Return st
  | S i =>
      if size <=? d st then Return st
      else
        let* st' := (if flag_set flags i then reference_unit data size st
                     else literal_unit data st) in
        bit_loop i data size flags st'
  end.

(** One iteration of the [while] body: a flag byte and its eight bits. *)
Definition round (data : list byte) (size : Z) (st : state) : outcome state :=
  let* flags := Py.getitem data (s st) in
  bit_loop 8 data size (Py.int flags) (State (s st + 1) (d st) (out st)).

(** [while d < size: ...], at most [fuel] iterations. *)
Fixpoint while_loop (fuel : nat) (data : list byte) (size : Z) (st : state)
  : outcome state :=
  if d st <? size then
    match fuel with
    | O => OutOfFuel
    | S fuel' =>
        let* st' := round data size st in
        while_loop fuel' data size st'
    end
  else Return st.

(** [header = struct.unpack('<I', data[src_offset:src_offset+4])[0]] *)
Definition read_header (data : list byte) (src_offset : Z) : outcome Z :=
  Py.unpack_u32_le (Py.slice data src_offset (src_offset + 4)).

(** The function up to its [return]: the declared size and the final values
    of [s], [d] and [out]. The [while] loop is given [size] iterations, which
    is as many as the loop can use: every iteration advances [d]. *)
Definition decode (data : list byte) (src_offset : Z) : outcome (Z * state) :=
  let* header := read_header data src_offset in
  let size := Z.shiftr header 8 in
  let out := Py.bytearray size in
  let* st := while_loop (Z.to_nat size) data size (State (src_offset + 4) 0 out) in
  Return (size, st).

Definition decompress_lz77 (data : list byte) (src_offset : Z) : outcome (list byte) :=
  let* r := decode data src_offset in
  Return (out (snd r)).

(** ** The script around the function *)

(** A [for x in l] loop whose body computes one value per element and may
    raise: the values in order, or the first exception. *)
Fixpoint for_each {A B : Type} (f : A -> outcome B) (l : list A)
  : outcome (list B) :=
  match l with
  | [] => Return []
  | x :: l' =>
      let* y := f x in
      let* ys := for_each f l' in
      Return (y :: ys)
  end.

(** [src = 0x5FF4] *)
Definition src : Z := 24564.

(** [for i in range(0, 32, 4): val = struct.unpack('<I', decompressed[i:i+4])[0]]
    with the pairs [(i, val)] that the loop prints. The word is read by the
    expression that reads the header, applied to the output. *)
Definition first_words (decompressed : list byte) : outcome (list (Z * Z)) :=
  for_each (fun i => let* val := read_header decompressed i in Return (i, val))
           (Py.range 0 32 4).

(** [for i in range(0x10c, min(0x10c+32, len(decompressed)), 4):]
    [if i + 4 <= len(decompressed): val = struct.unpack(...) else: val = 0] *)
Definition palette_words (decompressed : list byte) : outcome (list (Z * Z)) :=
  let len := Z.of_nat (length decompressed) in
  for_each (fun i =>
              let* val := (if i + 4 <=? len then read_header decompressed i
                           else Return 0) in
              Return (i, val))
           (Py.range 268 (Z.min (268 + 32) len) 4).

(** What a complete run of the script prints: the length of the output
    (twice), the two lists of words, and [len(decompressed) - 0x10c]. *)
Record report : Type := Report {
  decompressed_len : Z;
  first_32 : list (Z * Z);
  palette_area : list (Z * Z);
  bytes_from_10c : Z
}.

(** [with open('OG-DK.gba', 'rb') as f: rom = f.read()]. The file system
    is the parameter [file]: [Some rom] when the file can be opened and
    read and holds the bytes [rom], [None] when [open] or [read] raises
    [OSError] (a missing file gives its subclass [FileNotFoundError]). *)
Definition open_read (file : option (list byte)) : outcome (list byte) :=
  match file with
  | Some rom => Return rom
  | None => Raise OSError
  end.

(** The statements of the script in order. *)
Definition script (file : option (list byte)) : outcome report :=
  let* rom := open_read file in
  let* header := read_header rom src in
  let decomp_size := Z.shiftr header 8 in
  let* decompressed := decompress_lz77 rom src in
  let* w1 := first_words decompressed in
  let* w2 := palette_words decompressed in
  Return (Report (Z.of_nat (length decompressed)) w1 w2
                 (Z.of_nat (length decompressed) - 268)).

(** ** Predicates used in the statements *)

(** [post m Q]: the computation [m] ends, either returning a value that
    satisfies [Q] or raising [IndexError]. *)
Definition post {A : Type} (m : outcome A) (Q : A -> Prop) : Prop :=
  match m with
  | Return a => Q a
  | Raise e => e = IndexError
  | OutOfFuel => False
  end.

(** Every byte of [out] at a position [>= d] is still zero. *)
Definition zero_from (out : list byte) (d : Z) : Prop :=
  forall (k : nat) (b : byte), d <= Z.of_nat k -> out !! k = Some b -> b = x00.

(** The loop invariant: [out] has [size] bytes, the cursor is inside
    [0 .. size], and nothing has been written at or after the cursor. *)
Definition inv (size : Z) (out : list byte) (d : Z) : Prop :=
  Z.of_nat (length out) = size /\ 0 <= d <= size /\ zero_from out d.

Definition inv_state (size : Z) (st : state) : Prop :=
  inv size (out st) (d st).

(** Two sources of the same length that hold the same bytes at every
    position [>= s0]. *)
Definition same_from (s0 : Z) (data data' : list byte) : Prop :=
  length data = length data'
  /\ forall k : nat, s0 <= Z.of_nat k -> data !! k = data' !! k.

(** The state [st] of a decoder whose source starts [base] bytes later. *)
Definition shift (base : Z) (st : state) : state :=
  State (s st + base) (d st) (out st).

(** [v] is the little-endian value of the four bytes of [bs] at [i]. *)
Definition word_at (bs : list byte) (i v : Z) : Prop :=
  exists b0 b1 b2 b3 : byte,
    bs !! Z.to_nat i = Some b0
    /\ bs !! Z.to_nat (i + 1) = Some b1
    /\ bs !! Z.to_nat (i + 2) = Some b2
    /\ bs !! Z.to_nat (i + 3) = Some b3
    /\ v = Py.int b0 + 256 * Py.int b1 + 65536 * Py.int b2
           + 16777216 * Py.int b3.

(** ** Concrete inputs *)

(** The compressed stream of the worked example: flag byte [0x40], literal
    [0x41], reference [0x00 0x00], literal [0x42]. *)
Definition example_stream : list byte :=
  [x40; x41; x00; x00; x42].

(** The header of the worked example: any format tag, declared size 5. *)
Definition example_input (tag : byte) : list byte :=
  [tag; x05; x00; x00] ++ example_stream.

(** The state in which [decompress_lz77] enters its [while] loop. *)
Definition initial_state (src_offset size : Z) : state :=
  State (src_offset + 4) 0 (Py.bytearray size).

(** A block that declares 32 bytes: a literal [0x41] and two references
    of length 18 and distance 1, the second cut at the declared size. *)
Definition block_32 : list byte :=
  [x10; x20; x00; x00; x60; x41; xf0; x00; xf0; x00].

(** A source that holds [block_32] at the offset the script uses. *)
Definition example_rom : list byte :=
  replicate (Z.to_nat src) x00 ++ block_32.

(** * Properties *)

(** ** Python indexing *)

Section PyLemmas.
Context {A : Type}.
Implicit Types (l : list A) (i len : Z) (n : nat) (x : A).

Lemma norm_index_nonneg len i :
  0 <= i < len -> Py.norm_index len i = Some (Z.to_nat i).
Proof.
  intros [H0 H1]. unfold Py.norm_index.
  apply Z.leb_le in H0. apply Z.ltb_lt in H1. now rewrite H0, H1.
Qed.

Lemma norm_index_neg len i :
  - len <= i < 0 -> Py.norm_index len i = Some (Z.to_nat (len + i)).
Proof.
  intros [H0 H1]. unfold Py.norm_index.
  destruct (Z.leb_spec 0 i); [lia|]. cbn [andb].
  apply Z.leb_le in H0. apply Z.ltb_lt in H1. now rewrite H0, H1.
Qed.

Lemma norm_index_out len i :
  i < - len \/ len <= i -> 0 <= len -> Py.norm_index len i = None.
Proof.
  intros H Hl. unfold Py.norm_index.
  destruct (Z.leb_spec 0 i), (Z.ltb_spec i len), (Z.ltb_spec i 0),
    (Z.leb_spec (- len) i); cbn [andb]; try reflexivity; lia.
Qed.

Lemma norm_index_Some len i n :
  Py.norm_index len i = Some n ->
  (0 <= i < len /\ n = Z.to_nat i) \/ (- len <= i < 0 /\ n = Z.to_nat (len + i)).
Proof.
  unfold Py.norm_index.
  destruct (Z.leb_spec 0 i), (Z.ltb_spec i len), (Z.ltb_spec i 0),
    (Z.leb_spec (- len) i); cbn [andb]; intros [= <-]; lia.
Qed.

Lemma getitem_nonneg l i :
  0 <= i < Z.of_nat (length l) ->
  exists x, l !! Z.to_nat i = Some x /\ Py.getitem l i = Return x.
Proof.
  intros H. unfold Py.getitem. rewrite norm_index_nonneg by assumption.
  destruct (lookup_lt_is_Some_2 l (Z.to_nat i)) as [x Hx]; [lia|].
  exists x. now rewrite Hx.
Qed.

Lemma getitem_neg l i :
  - Z.of_nat (length l) <= i < 0 ->
  exists x, l !! Z.to_nat (Z.of_nat (length l) + i) = Some x
            /\ Py.getitem l i = Return x.
Proof.
  intros H. unfold Py.getitem. rewrite norm_index_neg by assumption.
  destruct (lookup_lt_is_Some_2 l (Z.to_nat (Z.of_nat (length l) + i)))
    as [x Hx]; [lia|].
  exists x. now rewrite Hx.
Qed.

Lemma getitem_out l i :
  i < - Z.of_nat (length l) \/ Z.of_nat (length l) <= i ->
  Py.getitem l i = Raise IndexError.
Proof.
  intros H. unfold Py.getitem. rewrite norm_index_out; [reflexivity|lia|lia].
Qed.

Lemma getitem_Return l i x :
  Py.getitem l i = Return x ->
  - Z.of_nat (length l) <= i < Z.of_nat (length l).
Proof.
  unfold Py.getitem.
  destruct (Py.norm_index _ i) as [n|] eqn:E; [|discriminate].
  intros _. apply norm_index_Some in E. lia.
Qed.

Lemma getitem_cases l i :
  (exists x, Py.getitem l i = Return x) \/ Py.getitem l i = Raise IndexError.
Proof.
  unfold Py.getitem. destruct (Py.norm_index _ i) as [n|]; [|now right].
  destruct (l !! n) as [x|]; [left; now exists x | now right].
Qed.

Lemma setitem_in l i x :
  0 <= i < Z.of_nat (length l) ->
  Py.setitem l i x = Return (<[Z.to_nat i := x]> l).
Proof.
  intros H. unfold Py.setitem. now rewrite norm_index_nonneg.
Qed.

End PyLemmas.

(** ** Reasoning about outcomes *)

Lemma post_bind {A B : Type} (m : outcome A) (k : A -> outcome B)
      (Q : A -> Prop) (R : B -> Prop) :
  post m Q -> (forall a, Q a -> post (k a) R) -> post (bind m k) R.
Proof. destruct m; cbn; auto; contradiction. Qed.

Lemma post_weaken {A : Type} (m : outcome A) (Q R : A -> Prop) :
  post m Q -> (forall a, Q a -> R a) -> post m R.
Proof. destruct m; cbn; auto. Qed.

Lemma post_getitem {A : Type} (l : list A) (i : Z) :
  post (Py.getitem l i)
       (fun _ => - Z.of_nat (length l) <= i < Z.of_nat (length l)).
Proof.
  destruct (getitem_cases l i) as [[x Hx]|Hx]; rewrite Hx; cbn; [|reflexivity].
  now apply getitem_Return in Hx.
Qed.

(** ** The invariant *)

Lemma zero_from_bytearray (n : Z) : zero_from (Py.bytearray n) 0.
Proof.
  intros k b _ H. unfold Py.bytearray in H.
  apply lookup_replicate in H. now destruct H.
Qed.

Lemma inv_init (size : Z) : 0 <= size -> inv size (Py.bytearray size) 0.
Proof.
  intros H. unfold inv, Py.bytearray. rewrite length_replicate.
  repeat split; [lia|lia|assumption|apply zero_from_bytearray].
Qed.

(** Writing at the cursor and advancing it keeps the invariant. *)
Lemma inv_write (size : Z) (out : list byte) (d : Z) (b : byte) :
  inv size out d -> d < size ->
  Py.setitem out d b = Return (<[Z.to_nat d := b]> out)
  /\ inv size (<[Z.to_nat d := b]> out) (d + 1).
Proof.
  intros (Hlen & Hd & Hz) Hlt. split.
  - apply setitem_in. lia.
  - unfold inv. rewrite length_insert. repeat split; try lia.
    intros k c Hk Hc. rewrite list_lookup_insert_ne in Hc by lia.
    apply (Hz k c); [lia|assumption].
Qed.

Lemma getitem_in_range {A : Type} (l : list A) (i : Z) :
  - Z.of_nat (length l) <= i < Z.of_nat (length l) ->
  exists x, Py.getitem l i = Return x.
Proof.
  intros H. destruct (Z.leb_spec 0 i).
  - destruct (getitem_nonneg l i) as (x & _ & Hx); [lia|]. now exists x.
  - destruct (getitem_neg l i) as (x & _ & Hx); [lia|]. now exists x.
Qed.

(** ** The copy loop of a reference *)

Lemma copy_loop_post (n : nat) (size offset : Z) :
  forall (out : list byte) (d : Z),
  inv size out d ->
  post (copy_loop n size offset out d)
       (fun r => inv size (fst r) (snd r)
                 /\ snd r = Z.min (d + Z.of_nat n) size).
Proof.
  induction n as [|n IH]; intros out d Hinv; cbn [copy_loop].
  - cbn. split; [assumption|]. destruct Hinv as (_ & ? & _). lia.
  - destruct (Z.leb_spec size d) as [Hge|Hlt].
    + cbn. split; [assumption|]. destruct Hinv as (_ & ? & _). lia.
    + eapply post_bind; [apply post_getitem|]. intros b _. cbn beta.
      destruct (inv_write size out d b Hinv Hlt) as [-> Hinv'].
      cbn [bind]. eapply post_weaken; [apply IH, Hinv'|].
      intros r [H1 H2]. split; [assumption|]. lia.
Qed.

(** A reference whose first read is inside the buffer, under Python's
    indexing, completes without an exception. *)
Lemma copy_loop_returns (n : nat) (size offset : Z) :
  forall (out : list byte) (d : Z),
  inv size out d -> 1 <= offset -> offset - d <= size ->
  exists r, copy_loop n size offset out d = Return r.
Proof.
  induction n as [|n IH]; intros out d Hinv Hoff Hin; cbn [copy_loop].
  - eauto.
  - destruct (Z.leb_spec size d) as [Hge|Hlt]; [eauto|].
    destruct (getitem_in_range out (d - offset)) as [b ->].
    { destruct Hinv as (? & ? & _). lia. }
    cbn [bind].
    destruct (inv_write size out d b Hinv Hlt) as [-> Hinv'].
    cbn [bind]. apply IH; [assumption|lia|lia].
Qed.

(** A reference whose first read is outside the buffer raises at once. *)
Lemma copy_loop_raises (n : nat) (size offset : Z) (out : list byte) (d : Z) :
  Z.of_nat (length out) = size -> d < size -> size < offset - d ->
  copy_loop (S n) size offset out d = Raise IndexError.
Proof.
  intros Hlen Hlt Hout. cbn [copy_loop].
  destruct (Z.leb_spec size d); [lia|].
  rewrite getitem_out by lia. reflexivity.
Qed.

(** A reference that lies inside the written output and fits in the
    buffer: [n] bytes are written, each equal to the byte [offset] places
    before it in the buffer as it is after the copy. *)
Lemma copy_loop_in_range (n : nat) (size offset : Z) :
  forall (out : list byte) (d : Z),
  Z.of_nat (length out) = size ->
  1 <= offset <= d -> d + Z.of_nat n <= size ->
  exists out',
    copy_loop n size offset out d = Return (out', d + Z.of_nat n)
    /\ length out' = length out
    /\ (forall k : nat, Z.of_nat k < d \/ d + Z.of_nat n <= Z.of_nat k ->
                        out' !! k = out !! k)
    /\ (forall j : Z, 0 <= j < Z.of_nat n ->
                      out' !! Z.to_nat (d + j) = out' !! Z.to_nat (d + j - offset)).
Proof.
  induction n as [|n IH]; intros out d Hlen Hoff Hfit; cbn [copy_loop].
  - exists out. rewrite Z.add_0_r. repeat split. intros j Hj. lia.
  - destruct (Z.leb_spec size d) as [Hge|Hlt]; [lia|].
    destruct (getitem_nonneg out (d - offset)) as (b & Hb & ->); [lia|].
    cbn [bind]. rewrite setitem_in by lia. cbn [bind].
    destruct (IH (<[Z.to_nat d := b]> out) (d + 1)) as (out' & Hrun & Hl & Hout & Hin).
    { rewrite length_insert. assumption. }
    { lia. }
    { lia. }
    exists out'. rewrite Hrun. split; [f_equal; f_equal; lia|].
    rewrite length_insert in Hl. split; [assumption|]. split.
    + intros k Hk. rewrite Hout by lia. apply list_lookup_insert_ne. lia.
    + intros j Hj. destruct (Z.eq_dec j 0) as [->|Hne].
      * rewrite Z.add_0_r. rewrite !Hout by lia.
        rewrite list_lookup_insert_eq by lia.
        rewrite list_lookup_insert_ne by lia. now rewrite Hb.
      * replace (d + j) with (d + 1 + (j - 1)) by lia. apply Hin. lia.
Qed.

(** ** The fields of a reference *)

Lemma int_range (b : byte) : 0 <= Py.int b < 256.
Proof.
  unfold Py.int. pose proof (Byte.to_N_bounded b) as H.
  split; [apply N2Z.is_nonneg|]. lia.
Qed.

Lemma ref_length_range (byte1 : Z) : 3 <= ref_length byte1 <= 18.
Proof.
  unfold ref_length. change 15 with (Z.ones 4).
  rewrite Z.land_ones by lia.
  pose proof (Z.mod_pos_bound (Z.shiftr byte1 4) (2 ^ 4)). lia.
Qed.

Lemma log2_lt_pow2_nonneg (x n : Z) :
  0 <= x < 2 ^ n -> 0 < n -> Z.log2 x < n.
Proof.
  intros Hx Hn. destruct (Z.eq_dec x 0) as [->|Hne]; [assumption|].
  apply Z.log2_lt_pow2; lia.
Qed.

Lemma lor_lt_pow2 (a b n : Z) :
  0 <= a < 2 ^ n -> 0 <= b < 2 ^ n -> 0 <= Z.lor a b < 2 ^ n.
Proof.
  intros Ha Hb.
  assert (0 <= Z.lor a b) by (apply Z.lor_nonneg; lia).
  split; [assumption|].
  destruct (Z.eq_dec (Z.lor a b) 0) as [->|Hne]; [lia|].
  destruct (Z.ltb_spec 0 n) as [Hn|Hn].
  - apply Z.log2_lt_pow2; [lia|].
    rewrite Z.log2_lor by lia.
    pose proof (log2_lt_pow2_nonneg a n Ha Hn).
    pose proof (log2_lt_pow2_nonneg b n Hb Hn). lia.
  - assert (2 ^ n <= 1).
    { destruct (Z.eq_dec n 0) as [->|]; [cbn; lia|].
      rewrite Z.pow_neg_r by lia. lia. }
    assert (a = 0) as -> by lia. assert (b = 0) as -> by lia.
    now contradict Hne.
Qed.

Lemma ref_offset_range (byte1 byte2 : Z) :
  0 <= byte2 < 256 -> 1 <= ref_offset byte1 byte2 <= 4096.
Proof.
  intros H2. unfold ref_offset. change 15 with (Z.ones 4).
  rewrite Z.land_ones by lia. rewrite Z.shiftl_mul_pow2 by lia.
  pose proof (Z.mod_pos_bound byte1 (2 ^ 4)).
  pose proof (lor_lt_pow2 (byte1 mod 2 ^ 4 * 2 ^ 8) byte2 12).
  lia.
Qed.

(** ** Units, flag bytes, and the loops around them *)

(** Split the conjunctions of a goal, without unfolding definitions. *)
Ltac splits := repeat match goal with |- _ /\ _ => split end.

Lemma literal_unit_post (data : list byte) (size : Z) (st : state) :
  inv_state size st -> d st < size ->
  post (literal_unit data st)
       (fun st' => inv_state size st'
                   /\ d st' = d st + 1 /\ s st' = s st + 1).
Proof.
  intros Hinv Hlt. unfold literal_unit.
  eapply post_bind; [apply post_getitem|]. intros b _. cbn beta.
  destruct (inv_write size (out st) (d st) b Hinv Hlt) as [-> Hinv'].
  cbn. auto.
Qed.

Lemma reference_unit_post (data : list byte) (size : Z) (st : state) :
  inv_state size st -> d st < size ->
  post (reference_unit data size st)
       (fun st' => inv_state size st'
                   /\ d st < d st' /\ s st' = s st + 2).
Proof.
  intros Hinv Hlt. unfold reference_unit.
  eapply post_bind; [apply post_getitem|]. intros byte1 _. cbn beta.
  eapply post_bind; [apply post_getitem|]. intros byte2 _. cbn beta zeta.
  eapply post_bind; [apply copy_loop_post, Hinv|]. intros r [Hr Hd].
  cbn. split; [assumption|]. split; [|reflexivity].
  pose proof (ref_length_range (Py.int byte1)). lia.
Qed.

Lemma bit_loop_post (n : nat) (data : list byte) (size flags : Z) :
  forall st : state,
  inv_state size st ->
  post (bit_loop n data size flags st)
       (fun st' => inv_state size st'
                   /\ d st <= d st' /\ s st <= s st'
                   /\ ((0 < n)%nat -> d st < size -> d st < d st')).
Proof.
  induction n as [|n IH]; intros st Hinv; cbn [bit_loop].
  - cbn. splits; [assumption|lia|lia|lia].
  - destruct (Z.leb_spec size (d st)) as [Hge|Hlt].
    + cbn. splits; [assumption|lia|lia|lia].
    + eapply post_bind with
        (Q := fun st' => inv_state size st' /\ d st < d st' /\ s st <= s st').
      * destruct (flag_set flags n).
        -- eapply post_weaken; [apply reference_unit_post; assumption|].
           cbn beta. intros st' (? & ? & ?). splits; [assumption|lia|lia].
        -- eapply post_weaken; [apply literal_unit_post; eassumption|].
           cbn beta. intros st' (? & ? & ?). splits; [assumption|lia|lia].
      * intros st' (Hinv' & Hd & Hs).
        eapply post_weaken; [apply IH, Hinv'|].
        cbn beta. intros st'' (? & ? & ? & _). splits; [assumption|lia..].
Qed.

Lemma round_post (data : list byte) (size : Z) (st : state) :
  inv_state size st -> d st < size ->
  post (round data size st)
       (fun st' => inv_state size st' /\ d st < d st' /\ s st < s st').
Proof.
  intros Hinv Hlt. unfold round.
  eapply post_bind; [apply post_getitem|]. intros flags _. cbn beta.
  eapply post_weaken; [apply bit_loop_post; exact Hinv|].
  cbn. intros st' (? & ? & ? & Hprog). splits; [assumption| |lia].
  apply Hprog; [lia|assumption].
Qed.

(** [size - d] iterations are enough for the [while] loop. *)
Lemma while_loop_post (fuel : nat) (data : list byte) (size : Z) :
  forall st : state,
  inv_state size st -> size - d st <= Z.of_nat fuel ->
  post (while_loop fuel data size st)
       (fun st' => inv_state size st' /\ d st' = size /\ s st <= s st').
Proof.
  induction fuel as [|fuel IH]; intros st Hinv Hfuel; cbn [while_loop];
    destruct (Z.ltb_spec (d st) size) as [Hlt|Hge].
  - lia.
  - cbn. pose proof Hinv as (? & ? & ?). splits; try assumption; lia.
  - eapply post_bind; [apply round_post; assumption|].
    intros st' (Hinv' & Hd & Hs).
    eapply post_weaken; [apply IH; [assumption|lia]|].
    cbn beta. intros st'' (? & ? & ?). splits; [assumption|lia..].
  - cbn. pose proof Hinv as (? & ? & ?). splits; try assumption; lia.
Qed.

(** The result of the [while] loop does not depend on the bound, once the
    bound is at least [size - d]. *)
Lemma while_loop_fuel_irrelevant (fuel1 : nat) (data : list byte) (size : Z) :
  forall (fuel2 : nat) (st : state),
  inv_state size st ->
  size - d st <= Z.of_nat fuel1 -> size - d st <= Z.of_nat fuel2 ->
  while_loop fuel1 data size st = while_loop fuel2 data size st.
Proof.
  induction fuel1 as [|fuel1 IH]; intros fuel2 st Hinv H1 H2;
    destruct fuel2 as [|fuel2]; cbn [while_loop];
    destruct (Z.ltb_spec (d st) size) as [Hlt|Hge];
    try reflexivity; try lia.
  pose proof (round_post data size st Hinv Hlt) as Hr.
  destruct (round data size st) as [st'| |]; cbn [bind]; try reflexivity.
  cbn in Hr. destruct Hr as (Hinv' & Hd & _).
  apply IH; [assumption|lia..].
Qed.

(** ** The header *)

Lemma lor_mul_add (lo hi n : Z) :
  0 <= n -> 0 <= lo < 2 ^ n -> Z.lor lo (hi * 2 ^ n) = lo + hi * 2 ^ n.
Proof.
  intros Hn Hlo. rewrite <- Z.add_lor_land.
  assert (Z.land lo (hi * 2 ^ n) = 0) as ->; [|lia].
  apply Z.bits_inj'. intros m Hm.
  rewrite Z.land_spec, Z.bits_0, <- Z.shiftl_mul_pow2 by lia.
  destruct (Z.ltb_spec m n).
  - rewrite Z.shiftl_spec_low by lia. apply andb_false_r.
  - rewrite <- (Z.mod_small lo (2 ^ n)) by lia.
    rewrite Z.mod_pow2_bits_high by lia. reflexivity.
Qed.

(** The little-endian value of the four header bytes. *)
Lemma u32_le_value (b0 b1 b2 b3 : byte) :
  Py.u32_le b0 b1 b2 b3
  = Py.int b0 + 256 * Py.int b1 + 65536 * Py.int b2 + 16777216 * Py.int b3.
Proof.
  pose proof (int_range b0). pose proof (int_range b1).
  pose proof (int_range b2). pose proof (int_range b3).
  unfold Py.u32_le. rewrite !Z.shiftl_mul_pow2 by lia.
  rewrite (lor_mul_add (Py.int b2 * 2 ^ 16) (Py.int b3) 24) by lia.
  replace (Py.int b2 * 2 ^ 16 + Py.int b3 * 2 ^ 24)
    with ((Py.int b2 + Py.int b3 * 256) * 2 ^ 16) by lia.
  rewrite (lor_mul_add (Py.int b1 * 2 ^ 8) _ 16) by lia.
  replace (Py.int b1 * 2 ^ 8 + (Py.int b2 + Py.int b3 * 256) * 2 ^ 16)
    with ((Py.int b1 + Py.int b2 * 256 + Py.int b3 * 65536) * 2 ^ 8) by lia.
  rewrite (lor_mul_add (Py.int b0) _ 8) by lia. lia.
Qed.

(** [header >> 8] is the number made of the three upper bytes; the low
    byte plays no part in it. *)
Lemma header_size (b0 b1 b2 b3 : byte) :
  Z.shiftr (Py.u32_le b0 b1 b2 b3) 8
  = Py.int b1 + 256 * Py.int b2 + 65536 * Py.int b3.
Proof.
  pose proof (int_range b0).
  rewrite u32_le_value, Z.shiftr_div_pow2 by lia.
  change (2 ^ 8) with 256.
  replace (Py.int b0 + 256 * Py.int b1 + 65536 * Py.int b2 + 16777216 * Py.int b3)
    with (Py.int b0 + (Py.int b1 + 256 * Py.int b2 + 65536 * Py.int b3) * 256) by lia.
  rewrite Z.div_add by lia. rewrite Z.div_small by lia. lia.
Qed.

Lemma header_size_range (b0 b1 b2 b3 : byte) :
  0 <= Z.shiftr (Py.u32_le b0 b1 b2 b3) 8 < 16777216.
Proof.
  rewrite header_size.
  pose proof (int_range b1). pose proof (int_range b2).
  pose proof (int_range b3). lia.
Qed.

Lemma read_header_cases (data : list byte) (src_offset : Z) :
  (length (Py.slice data src_offset (src_offset + 4)) <> 4%nat
   /\ read_header data src_offset = Raise StructError)
  \/ (exists b0 b1 b2 b3,
        Py.slice data src_offset (src_offset + 4) = [b0; b1; b2; b3]
        /\ read_header data src_offset = Return (Py.u32_le b0 b1 b2 b3)).
Proof.
  unfold read_header.
  destruct (Py.slice data src_offset (src_offset + 4))
    as [|b0 [|b1 [|b2 [|b3 [|b4 bs]]]]]; cbn;
    try (left; split; [lia|reflexivity]).
  right. now exists b0, b1, b2, b3.
Qed.

(** For an offset that is not negative, the slice has four bytes exactly
    when four bytes remain at the offset. *)
Lemma slice_header_length (data : list byte) (src_offset : Z) :
  0 <= src_offset ->
  length (Py.slice data src_offset (src_offset + 4))
  = Z.to_nat (Z.min 4 (Z.max 0 (Z.of_nat (length data) - src_offset))).
Proof.
  intros H. unfold Py.slice, Py.clamp.
  destruct (Z.ltb_spec src_offset 0); [lia|].
  destruct (Z.ltb_spec (src_offset + 4) 0); [lia|].
  rewrite length_take, length_drop. lia.
Qed.

(** ** The whole function *)

Lemma decode_unfold (data : list byte) (src_offset header : Z) :
  read_header data src_offset = Return header ->
  decode data src_offset
  = let size := Z.shiftr header 8 in
    let* st := while_loop (Z.to_nat size) data size (initial_state src_offset size) in
    Return (size, st).
Proof. intros H. unfold decode. rewrite H. reflexivity. Qed.

Lemma read_header_size_range (data : list byte) (src_offset header : Z) :
  read_header data src_offset = Return header ->
  0 <= Z.shiftr header 8 < 16777216.
Proof.
  intros H. destruct (read_header_cases data src_offset)
    as [[_ E]|(b0 & b1 & b2 & b3 & _ & E)]; rewrite E in H; [discriminate|].
  injection H as <-. apply header_size_range.
Qed.

Lemma initial_state_inv (src_offset size : Z) :
  0 <= size -> inv_state size (initial_state src_offset size).
Proof. intros H. apply inv_init, H. Qed.

(** What [decode] can do: raise [struct.error] at the header, raise
    [IndexError] in the loop, or return with the cursor at the declared
    size. *)
Lemma decode_cases (data : list byte) (src_offset : Z) :
  (read_header data src_offset = Raise StructError
   /\ decode data src_offset = Raise StructError)
  \/ decode data src_offset = Raise IndexError
  \/ exists header st,
       read_header data src_offset = Return header
       /\ decode data src_offset = Return (Z.shiftr header 8, st)
       /\ inv_state (Z.shiftr header 8) st
       /\ d st = Z.shiftr header 8
       /\ src_offset + 4 <= s st.
Proof.
  destruct (read_header_cases data src_offset)
    as [[_ E]|(b0 & b1 & b2 & b3 & _ & E)].
  - left. split; [exact E|]. unfold decode. rewrite E. reflexivity.
  - right. rewrite (decode_unfold _ _ _ E). cbn zeta.
    pose proof (read_header_size_range _ _ _ E) as Hsz.
    set (size := Z.shiftr (Py.u32_le b0 b1 b2 b3) 8) in *.
    pose proof (while_loop_post (Z.to_nat size) data size
                  (initial_state src_offset size)
                  (initial_state_inv src_offset size (proj1 Hsz))) as Hpost.
    cbn [initial_state d] in Hpost. specialize (Hpost ltac:(lia)).
    destruct (while_loop _ data size _) as [st|e|]; cbn in Hpost.
    + right. exists (Py.u32_le b0 b1 b2 b3), st. fold size.
      destruct Hpost as (? & ? & ?). splits; auto.
    + left. now subst e.
    + contradiction.
Qed.

Lemma decompress_cases (data : list byte) (src_offset : Z) :
  (read_header data src_offset = Raise StructError
   /\ decompress_lz77 data src_offset = Raise StructError)
  \/ decompress_lz77 data src_offset = Raise IndexError
  \/ exists header st,
       read_header data src_offset = Return header
       /\ decode data src_offset = Return (Z.shiftr header 8, st)
       /\ decompress_lz77 data src_offset = Return (out st)
       /\ inv_state (Z.shiftr header 8) st
       /\ d st = Z.shiftr header 8
       /\ src_offset + 4 <= s st.
Proof.
  unfold decompress_lz77.
  destruct (decode_cases data src_offset)
    as [[Hh E]|[E|(h & st & Hh & E & Hinv & Hd & Hs)]]; rewrite E; cbn; auto.
  right. right. exists h, st. auto 10.
Qed.

(** ** An exhausted source *)

Lemma literal_unit_exhausted (data : list byte) (st : state) :
  Z.of_nat (length data) <= s st -> literal_unit data st = Raise IndexError.
Proof.
  intros H. unfold literal_unit. rewrite getitem_out by lia. reflexivity.
Qed.

Lemma reference_unit_exhausted (data : list byte) (size : Z) (st : state) :
  Z.of_nat (length data) <= s st + 1 ->
  reference_unit data size st = Raise IndexError.
Proof.
  intros H. unfold reference_unit.
  destruct (getitem_cases data (s st)) as [[b1 ->]| ->]; [|reflexivity].
  cbn [bind]. rewrite getitem_out by lia. reflexivity.
Qed.

Lemma round_exhausted (data : list byte) (size : Z) (st : state) :
  Z.of_nat (length data) <= s st -> round data size st = Raise IndexError.
Proof.
  intros H. unfold round. rewrite getitem_out by lia. reflexivity.
Qed.

Lemma while_loop_step (data : list byte) (size : Z) (st : state) :
  0 <= d st < size ->
  exists fuel,
    Z.to_nat size = S fuel
    /\ while_loop (Z.to_nat size) data size st
       = let* st' := round data size st in while_loop fuel data size st'.
Proof.
  intros H. exists (Nat.pred (Z.to_nat size)).
  assert (Z.to_nat size = S (Nat.pred (Z.to_nat size))) as E by lia.
  split; [exact E|]. rewrite E at 1. cbn [while_loop].
  destruct (Z.ltb_spec (d st) size); [reflexivity|lia].
Qed.

(** The first unit of a flag byte is always decoded: bit 7 chooses between
    a reference and a literal. *)
Lemma round_first_unit (data : list byte) (size : Z) (st : state) (flags : byte) :
  d st < size ->
  Py.getitem data (s st) = Return flags ->
  round data size st
  = let* st' := (if flag_set (Py.int flags) 7
                 then reference_unit data size (State (s st + 1) (d st) (out st))
                 else literal_unit data (State (s st + 1) (d st) (out st))) in
    bit_loop 7 data size (Py.int flags) st'.
Proof.
  intros Hlt Hf. unfold round. rewrite Hf. cbn [bind bit_loop d].
  destruct (Z.leb_spec size (d st)); [lia|reflexivity].
Qed.

(** The stream ends right after the header, and at least one byte is
    still to be produced. *)
Lemma decode_no_flag_byte (data : list byte) (src_offset header : Z) :
  read_header data src_offset = Return header ->
  0 < Z.shiftr header 8 ->
  Z.of_nat (length data) <= src_offset + 4 ->
  decode data src_offset = Raise IndexError.
Proof.
  intros Hh Hsz Hlen. rewrite (decode_unfold _ _ _ Hh). cbn zeta.
  destruct (while_loop_step data (Z.shiftr header 8)
              (initial_state src_offset (Z.shiftr header 8)))
    as (fuel & _ & ->); [cbn; lia|].
  rewrite round_exhausted by (cbn; lia). reflexivity.
Qed.

(** The stream ends inside the first unit after the first flag byte. *)
Lemma decode_truncated_unit (data : list byte) (src_offset header : Z) (flags : byte) :
  read_header data src_offset = Return header ->
  0 < Z.shiftr header 8 ->
  Py.getitem data (src_offset + 4) = Return flags ->
  Z.of_nat (length data)
    <= src_offset + (if flag_set (Py.int flags) 7 then 6 else 5) ->
  decode data src_offset = Raise IndexError.
Proof.
  intros Hh Hsz Hf Hlen. rewrite (decode_unfold _ _ _ Hh). cbn zeta.
  destruct (while_loop_step data (Z.shiftr header 8)
              (initial_state src_offset (Z.shiftr header 8)))
    as (fuel & _ & ->); [cbn; lia|].
  rewrite (round_first_unit _ _ _ flags) by (cbn; first [lia|assumption]).
  cbn [initial_state s d out].
  destruct (flag_set (Py.int flags) 7).
  - rewrite reference_unit_exhausted by (cbn; lia). reflexivity.
  - rewrite literal_unit_exhausted by (cbn; lia). reflexivity.
Qed.

(** ** The bytes before [s] are never read again *)

Section SameFrom.
Variables (s0 : Z) (data data' : list byte).
Hypothesis Hsame : same_from s0 data data'.
Hypothesis Hs0 : 0 <= s0.

Lemma getitem_same_from (i : Z) :
  s0 <= i -> Py.getitem data i = Py.getitem data' i.
Proof.
  intros Hi. destruct Hsame as [Hlen Hbytes]. unfold Py.getitem.
  rewrite <- Hlen.
  destruct (Py.norm_index _ i) as [n|] eqn:E; [|reflexivity].
  apply norm_index_Some in E. rewrite (Hbytes n) by lia. reflexivity.
Qed.

Lemma literal_unit_same_from (st : state) :
  s0 <= s st -> literal_unit data st = literal_unit data' st.
Proof.
  intros H. unfold literal_unit. now rewrite getitem_same_from.
Qed.

Lemma reference_unit_same_from (size : Z) (st : state) :
  s0 <= s st -> reference_unit data size st = reference_unit data' size st.
Proof.
  intros H. unfold reference_unit.
  rewrite !getitem_same_from by lia. reflexivity.
Qed.

Lemma literal_unit_s (st st' : state) :
  literal_unit data st = Return st' -> s st' = s st + 1.
Proof.
  unfold literal_unit.
  destruct (Py.getitem data (s st)); cbn [bind]; try discriminate.
  destruct (Py.setitem (out st) (d st) a); cbn [bind]; try discriminate.
  now intros [= <-].
Qed.

Lemma reference_unit_s (size : Z) (st st' : state) :
  reference_unit data size st = Return st' -> s st' = s st + 2.
Proof.
  unfold reference_unit.
  destruct (Py.getitem data (s st)); cbn [bind]; try discriminate.
  destruct (Py.getitem data (s st + 1)); cbn [bind]; try discriminate.
  destruct (copy_loop _ _ _ _ _); cbn [bind]; try discriminate.
  now intros [= <-].
Qed.

Lemma bit_loop_same_from (n : nat) (size flags : Z) :
  forall st : state,
  s0 <= s st ->
  bit_loop n data size flags st = bit_loop n data' size flags st
  /\ forall st', bit_loop n data size flags st = Return st' -> s st <= s st'.
Proof.
  induction n as [|n IH]; intros st Hs; cbn [bit_loop].
  - split; [reflexivity|]. intros st' [= <-]. lia.
  - destruct (Z.leb_spec size (d st)).
    + split; [reflexivity|]. intros st' [= <-]. lia.
    + destruct (flag_set flags n).
      * rewrite <- reference_unit_same_from by assumption.
        destruct (reference_unit data size st) as [st1| |] eqn:E;
          cbn [bind]; try (split; [reflexivity|discriminate]).
        apply reference_unit_s in E.
        destruct (IH st1) as [IH1 IH2]; [lia|]. split; [exact IH1|].
        intros st' H'. apply IH2 in H'. lia.
      * rewrite <- literal_unit_same_from by assumption.
        destruct (literal_unit data st) as [st1| |] eqn:E;
          cbn [bind]; try (split; [reflexivity|discriminate]).
        apply literal_unit_s in E.
        destruct (IH st1) as [IH1 IH2]; [lia|]. split; [exact IH1|].
        intros st' H'. apply IH2 in H'. lia.
Qed.

Lemma round_same_from (size : Z) (st : state) :
  s0 <= s st ->
  round data size st = round data' size st
  /\ forall st', round data size st = Return st' -> s st <= s st'.
Proof.
  intros Hs. unfold round. rewrite <- getitem_same_from by assumption.
  destruct (Py.getitem data (s st)) as [flags| |]; cbn [bind];
    try (split; [reflexivity|discriminate]).
  destruct (bit_loop_same_from 8 size (Py.int flags)
              (State (s st + 1) (d st) (out st))) as [H1 H2]; [cbn; lia|].
  split; [exact H1|]. intros st' H'. apply H2 in H'. cbn in H'. lia.
Qed.

Lemma while_loop_same_from (fuel : nat) (size : Z) :
  forall st : state,
  s0 <= s st ->
  while_loop fuel data size st = while_loop fuel data' size st.
Proof.
  induction fuel as [|fuel IH]; intros st Hs; cbn [while_loop];
    destruct (Z.ltb_spec (d st) size); try reflexivity.
  destruct (round_same_from size st Hs) as [H1 H2]. rewrite <- H1.
  destruct (round data size st) as [st1| |]; cbn [bind]; try reflexivity.
  apply IH. specialize (H2 st1 eq_refl). lia.
Qed.
End SameFrom.

(** Overwriting the byte at [src_offset], the format tag, changes the
    slice that holds the header in its first byte only. *)
Lemma slice_header_insert (data : list byte) (src_offset : Z) (tag : byte) :
  0 <= src_offset ->
  Py.slice (<[Z.to_nat src_offset := tag]> data) src_offset (src_offset + 4)
  = <[0%nat := tag]> (Py.slice data src_offset (src_offset + 4)).
Proof.
  intros H. unfold Py.slice, Py.clamp. rewrite length_insert.
  destruct (Z.ltb_spec src_offset 0); [lia|].
  destruct (Z.ltb_spec (src_offset + 4) 0); [lia|].
  set (len := Z.of_nat (length data)).
  destruct (Z.leb_spec len src_offset) as [Hout|Hin].
  - rewrite list_insert_ge by lia.
    replace (Z.to_nat (Z.min (src_offset + 4) len)
             - Z.to_nat (Z.min src_offset len))%nat with 0%nat by lia.
    reflexivity.
  - replace (Z.to_nat (Z.min src_offset len)) with (Z.to_nat src_offset) by lia.
    rewrite drop_insert_ge by lia. rewrite Nat.sub_diag.
    apply take_insert_lt. lia.
Qed.

(** The declared size does not depend on the format tag. *)
Lemma read_header_insert (data : list byte) (src_offset : Z) (tag : byte) :
  0 <= src_offset ->
  (read_header data src_offset = Raise StructError
   /\ read_header (<[Z.to_nat src_offset := tag]> data) src_offset
      = Raise StructError)
  \/ (exists h h',
        read_header data src_offset = Return h
        /\ read_header (<[Z.to_nat src_offset := tag]> data) src_offset = Return h'
        /\ Z.shiftr h 8 = Z.shiftr h' 8).
Proof.
  intros H. unfold read_header. rewrite slice_header_insert by assumption.
  destruct (Py.slice data src_offset (src_offset + 4))
    as [|b0 [|b1 [|b2 [|b3 [|b4 bs]]]]]; cbn; auto.
  right. do 2 eexists. splits; try reflexivity.
  now rewrite !header_size.
Qed.

Lemma same_from_insert (data : list byte) (src_offset : Z) (tag : byte) :
  0 <= src_offset ->
  same_from (src_offset + 4) data (<[Z.to_nat src_offset := tag]> data).
Proof.
  intros H. split; [now rewrite length_insert|].
  intros k Hk. rewrite list_lookup_insert_ne by lia. reflexivity.
Qed.

(** The result of the call does not depend on the format tag. *)
Lemma decompress_tag_irrelevant (data : list byte) (src_offset : Z) (tag : byte) :
  0 <= src_offset ->
  decompress_lz77 (<[Z.to_nat src_offset := tag]> data) src_offset
  = decompress_lz77 data src_offset.
Proof.
  intros H. unfold decompress_lz77, decode.
  destruct (read_header_insert data src_offset tag H)
    as [[-> ->]|(h & h' & -> & -> & Hsz)]; [reflexivity|].
  cbn [bind]. rewrite <- Hsz.
  rewrite <- (while_loop_same_from (src_offset + 4) data _
                (same_from_insert data src_offset tag H)) by (cbn; lia).
  reflexivity.
Qed.

(** ** A block decodes the same wherever it lies in the source *)

Section Frame.
Variables pre blk post : list byte.

Lemma getitem_frame (i : Z) (b : byte) :
  0 <= i -> Py.getitem blk i = Return b ->
  Py.getitem (pre ++ blk ++ post) (i + Z.of_nat (length pre)) = Return b.
Proof.
  intros Hi Hb. pose proof (getitem_Return _ _ _ Hb) as Hlt.
  destruct (getitem_nonneg blk i) as (x & Hx & Hx'); [lia|].
  rewrite Hx' in Hb. injection Hb as ->.
  destruct (getitem_nonneg (pre ++ blk ++ post) (i + Z.of_nat (length pre)))
    as (y & Hy & ->); [rewrite !length_app; lia|].
  rewrite lookup_app_r in Hy by lia.
  rewrite lookup_app_l in Hy by lia.
  replace (Z.to_nat (i + Z.of_nat (length pre)) - length pre)%nat
    with (Z.to_nat i) in Hy by lia.
  congruence.
Qed.

Lemma literal_unit_frame (st st' : state) :
  0 <= s st -> literal_unit blk st = Return st' ->
  literal_unit (pre ++ blk ++ post) (shift (Z.of_nat (length pre)) st)
  = Return (shift (Z.of_nat (length pre)) st').
Proof.
  intros Hs. unfold literal_unit. cbn [shift s d out].
  destruct (Py.getitem blk (s st)) as [b| |] eqn:E; cbn [bind]; try discriminate.
  rewrite (getitem_frame _ _ Hs E). cbn [bind].
  destruct (Py.setitem (out st) (d st) b); cbn [bind]; try discriminate.
  intros [= <-]. unfold shift. cbn [s d out].
  now replace (s st + 1 + Z.of_nat (length pre))
    with (s st + Z.of_nat (length pre) + 1) by lia.
Qed.

Lemma reference_unit_frame (size : Z) (st st' : state) :
  0 <= s st -> reference_unit blk size st = Return st' ->
  reference_unit (pre ++ blk ++ post) size (shift (Z.of_nat (length pre)) st)
  = Return (shift (Z.of_nat (length pre)) st').
Proof.
  intros Hs. unfold reference_unit. cbn [shift s d out].
  destruct (Py.getitem blk (s st)) as [b1| |] eqn:E1; cbn [bind]; try discriminate.
  destruct (Py.getitem blk (s st + 1)) as [b2| |] eqn:E2; cbn [bind]; try discriminate.
  rewrite (getitem_frame _ _ Hs E1). cbn [bind].
  replace (s st + Z.of_nat (length pre) + 1)
    with (s st + 1 + Z.of_nat (length pre)) by lia.
  rewrite (getitem_frame (s st + 1) b2) by (lia || assumption). cbn [bind].
  cbv zeta. destruct (copy_loop _ _ _ _ _); cbn [bind]; try discriminate.
  intros [= <-]. unfold shift. cbn [s d out fst snd].
  now replace (s st + 2 + Z.of_nat (length pre))
    with (s st + Z.of_nat (length pre) + 2) by lia.
Qed.

Lemma bit_loop_frame (n : nat) (size flags : Z) :
  forall st st' : state,
  0 <= s st -> bit_loop n blk size flags st = Return st' ->
  bit_loop n (pre ++ blk ++ post) size flags (shift (Z.of_nat (length pre)) st)
  = Return (shift (Z.of_nat (length pre)) st')
  /\ 0 <= s st'.
Proof.
  induction n as [|n IH]; intros st st' Hs; cbn [bit_loop].
  - intros [= <-]. auto.
  - change (d (shift (Z.of_nat (length pre)) st)) with (d st).
    destruct (Z.leb_spec size (d st)); [intros [= <-]; auto|].
    destruct (flag_set flags n).
    + destruct (reference_unit blk size st) as [st1| |] eqn:E;
        cbn [bind]; try discriminate.
      rewrite (reference_unit_frame _ _ _ Hs E). cbn [bind].
      apply reference_unit_s in E. apply IH. lia.
    + destruct (literal_unit blk st) as [st1| |] eqn:E;
        cbn [bind]; try discriminate.
      rewrite (literal_unit_frame _ _ Hs E). cbn [bind].
      apply literal_unit_s in E. apply IH. lia.
Qed.

Lemma round_frame (size : Z) (st st' : state) :
  0 <= s st -> round blk size st = Return st' ->
  round (pre ++ blk ++ post) size (shift (Z.of_nat (length pre)) st)
  = Return (shift (Z.of_nat (length pre)) st')
  /\ 0 <= s st'.
Proof.
  intros Hs. unfold round. cbn [shift s d out].
  destruct (Py.getitem blk (s st)) as [flags| |] eqn:E; cbn [bind]; try discriminate.
  rewrite (getitem_frame _ _ Hs E). cbn [bind]. intros H.
  apply bit_loop_frame in H; [|cbn; lia]. unfold shift at 1 in H.
  cbn [s d out] in H.
  replace (s st + 1 + Z.of_nat (length pre))
    with (s st + Z.of_nat (length pre) + 1) in H by lia.
  exact H.
Qed.

Lemma while_loop_frame (fuel : nat) (size : Z) :
  forall st st' : state,
  0 <= s st -> while_loop fuel blk size st = Return st' ->
  while_loop fuel (pre ++ blk ++ post) size (shift (Z.of_nat (length pre)) st)
  = Return (shift (Z.of_nat (length pre)) st').
Proof.
  induction fuel as [|fuel IH]; intros st st' Hs; cbn [while_loop];
    change (d (shift (Z.of_nat (length pre)) st)) with (d st);
    destruct (Z.ltb_spec (d st) size); try discriminate;
    try (now intros [= <-]).
  destruct (round blk size st) as [st1| |] eqn:E; cbn [bind]; try discriminate.
  destruct (round_frame _ _ _ Hs E) as [-> Hs1]. cbn [bind]. now apply IH.
Qed.

Lemma slice_header_frame :
  (4 <= length blk)%nat ->
  Py.slice (pre ++ blk ++ post) (Z.of_nat (length pre)) (Z.of_nat (length pre) + 4)
  = Py.slice blk 0 (0 + 4).
Proof.
  intros Hlen. unfold Py.slice, Py.clamp. rewrite !length_app.
  destruct (Z.ltb_spec (Z.of_nat (length pre)) 0); [lia|].
  destruct (Z.ltb_spec (Z.of_nat (length pre) + 4) 0); [lia|].
  destruct (Z.ltb_spec 0 0); [lia|].
  destruct (Z.ltb_spec (0 + 4) 0); [lia|].
  replace (Z.to_nat (Z.min (Z.of_nat (length pre)) _)) with (length pre) by lia.
  replace (Z.to_nat (Z.min (Z.of_nat (length pre) + 4) _) - length pre)%nat
    with 4%nat by lia.
  replace (Z.to_nat (Z.min 0 (Z.of_nat (length blk)))) with 0%nat by lia.
  replace (Z.to_nat (Z.min (0 + 4) (Z.of_nat (length blk))) - 0)%nat
    with 4%nat by lia.
  rewrite drop_app_length, drop_0. apply take_app_le. lia.
Qed.

Lemma read_header_frame (header : Z) :
  read_header blk 0 = Return header ->
  read_header (pre ++ blk ++ post) (Z.of_nat (length pre)) = Return header.
Proof.
  intros H. destruct (read_header_cases blk 0)
    as [[_ E]|(b0 & b1 & b2 & b3 & Hs & _)]; [rewrite E in H; discriminate|].
  pose proof (slice_header_length blk 0 ltac:(lia)) as Hlen.
  rewrite Hs in Hlen. cbn [length] in Hlen.
  unfold read_header in *. rewrite slice_header_frame by lia. exact H.
Qed.

(** A call that returns on the block alone returns the same bytes when
    the block lies inside a larger source, at its offset there. *)
Lemma decompress_frame (res : list byte) :
  decompress_lz77 blk 0 = Return res ->
  decompress_lz77 (pre ++ blk ++ post) (Z.of_nat (length pre)) = Return res.
Proof.
  unfold decompress_lz77, decode.
  destruct (read_header blk 0) as [h| |] eqn:Hh; cbn [bind]; try discriminate.
  rewrite (read_header_frame _ Hh). cbn [bind]. cbv zeta.
  destruct (while_loop _ blk _ _) as [st| |] eqn:E; cbn [bind]; try discriminate.
  apply while_loop_frame in E; [|cbn; lia].
  unfold shift at 1, initial_state in E. cbn [s d out] in E.
  replace (0 + 4 + Z.of_nat (length pre))
    with (Z.of_nat (length pre) + 4) in E by lia.
  rewrite E.
  cbn. now intros [= <-].
Qed.
End Frame.

(** ** The position in the source never passes its end *)

Section SourceBound.
Variable data : list byte.

Lemma literal_unit_s_bound (st st' : state) :
  literal_unit data st = Return st' -> s st' <= Z.of_nat (length data).
Proof.
  intros H. pose proof (literal_unit_s _ _ _ H) as Hs. unfold literal_unit in H.
  destruct (Py.getitem data (s st)) as [b| |] eqn:E; try discriminate.
  apply getitem_Return in E. lia.
Qed.

Lemma reference_unit_s_bound (size : Z) (st st' : state) :
  reference_unit data size st = Return st' -> s st' <= Z.of_nat (length data).
Proof.
  intros H. pose proof (reference_unit_s _ _ _ _ H) as Hs.
  unfold reference_unit in H.
  destruct (Py.getitem data (s st)) as [b1| |]; try discriminate.
  cbn [bind] in H.
  destruct (Py.getitem data (s st + 1)) as [b2| |] eqn:E; try discriminate.
  apply getitem_Return in E. lia.
Qed.

Lemma bit_loop_s_bound (n : nat) (size flags : Z) :
  forall st st' : state,
  s st <= Z.of_nat (length data) ->
  bit_loop n data size flags st = Return st' ->
  s st' <= Z.of_nat (length data).
Proof.
  induction n as [|n IH]; intros st st' Hs; cbn [bit_loop].
  - now intros [= <-].
  - destruct (Z.leb_spec size (d st)); [now intros [= <-]|].
    destruct (flag_set flags n).
    + destruct (reference_unit data size st) as [st1| |] eqn:E;
        cbn [bind]; try discriminate.
      apply IH. eapply reference_unit_s_bound, E.
    + destruct (literal_unit data st) as [st1| |] eqn:E;
        cbn [bind]; try discriminate.
      apply IH. eapply literal_unit_s_bound, E.
Qed.

Lemma round_s_bound (size : Z) (st st' : state) :
  round data size st = Return st' -> s st' <= Z.of_nat (length data).
Proof.
  unfold round.
  destruct (Py.getitem data (s st)) as [flags| |] eqn:E; cbn [bind];
    try discriminate.
  apply getitem_Return in E. apply bit_loop_s_bound. cbn. lia.
Qed.

Lemma while_loop_s_bound (fuel : nat) (size : Z) :
  forall st st' : state,
  s st <= Z.of_nat (length data) ->
  while_loop fuel data size st = Return st' ->
  s st' <= Z.of_nat (length data).
Proof.
  induction fuel as [|fuel IH]; intros st st' Hs; cbn [while_loop];
    destruct (Z.ltb_spec (d st) size); try discriminate;
    try (now intros [= <-]).
  destruct (round data size st) as [st1| |] eqn:E; cbn [bind]; try discriminate.
  apply IH. eapply round_s_bound, E.
Qed.

(** A header that can be read ends inside the source. *)
Lemma read_header_end (src_offset header : Z) :
  read_header data src_offset = Return header ->
  src_offset + 4 <= Z.of_nat (length data).
Proof.
  intros H. destruct (read_header_cases data src_offset)
    as [[_ E]|(b0 & b1 & b2 & b3 & Hs & _)]; [rewrite E in H; discriminate|].
  apply (f_equal length) in Hs. cbn [length] in Hs.
  unfold Py.slice, Py.clamp in Hs. rewrite length_take, length_drop in Hs.
  destruct (Z.ltb_spec src_offset 0), (Z.ltb_spec (src_offset + 4) 0); lia.
Qed.

Lemma decode_s_bound (src_offset size : Z) (st : state) :
  decode data src_offset = Return (size, st) ->
  src_offset + 4 <= s st <= Z.of_nat (length data).
Proof.
  intros H.
  destruct (decode_cases data src_offset)
    as [[_ E]|[E|(h & st' & Hh & E & _ & _ & Hlo)]];
    rewrite E in H; try discriminate.
  injection H as <- <-. split; [exact Hlo|].
  rewrite (decode_unfold _ _ _ Hh) in E. cbv zeta in E.
  destruct (while_loop _ _ _ _) as [st1| |] eqn:Ew; cbn [bind] in E;
    try discriminate.
  injection E as <-.
  eapply while_loop_s_bound; [|exact Ew].
  cbn. eapply read_header_end, Hh.
Qed.
End SourceBound.

(** ** The claims of the specification *)

(** C1. On the worked example (declared size 5, flag byte [0x40], then
    [0x41], [0x00 0x00], [0x42]) [decompress_lz77] returns
    [[0x41; 0x41; 0x41; 0x41; 0x42]], whatever the format tag, the offset
    of the block in the source and the bytes around it. The bytes
    [0x00 0x00] decode to length 3 and distance 1, and the copy they ask for
    turns [[0x41; 0; 0; 0; 0]] at cursor 1 into [[0x41; 0x41; 0x41; 0x41; 0]]
    at cursor 4: each byte written is the source of the next. *)
Theorem worked_example_run_length (pre post : list byte) (tag : byte) :
  decompress_lz77 (pre ++ example_input tag ++ post) (Z.of_nat (length pre))
  = Return [x41; x41; x41; x41; x42]
  /\ ref_length (Py.int x00) = 3
  /\ ref_offset (Py.int x00) (Py.int x00) = 1
  /\ copy_loop 3 5 1 [x41; x00; x00; x00; x00] 1
     = Return ([x41; x41; x41; x41; x00], 4).
Proof.
  splits; try (vm_compute; reflexivity).
  apply decompress_frame. destruct tag; vm_compute; reflexivity.
Qed.

(** C9. When the header declares a decompressed size of 0,
    [decompress_lz77] returns an empty output, and [s] is left at
    [src_offset + 4]: only the header has been consumed. *)
Theorem size_zero_empty_output (data : list byte) (src_offset header : Z) :
  read_header data src_offset = Return header ->
  Z.shiftr header 8 = 0 ->
  decode data src_offset = Return (0, State (src_offset + 4) 0 [])
  /\ decompress_lz77 data src_offset = Return [].
Proof.
  intros Hh Hsz. unfold decompress_lz77.
  rewrite (decode_unfold _ _ _ Hh), Hsz. split; reflexivity.
Qed.

Lemma size_zero_empty_output_witness :
  decode [x10; x00; x00; x00; x80] 0 = Return (0, State (0 + 4) 0 [])
  /\ decompress_lz77 [x10; x00; x00; x00; x80] 0 = Return [].
Proof.
  apply (size_zero_empty_output [x10; x00; x00; x00; x80] 0 16);
    vm_compute; reflexivity.
Defined.

(** C10. [decompress_lz77] terminates on every input. Each iteration of
    the [while] loop either raises or returns with the cursor strictly
    larger and still at most the declared size, so the loop body runs at
    most [size] times: the bound given to the loop is never used up, and a
    larger bound gives the same result. *)
Theorem decompress_terminates (data : list byte) (src_offset : Z) :
  decompress_lz77 data src_offset <> OutOfFuel
  /\ (forall (size : Z) (st : state),
        inv_state size st -> d st < size ->
        post (round data size st) (fun st' => d st < d st' <= size))
  /\ (forall (header : Z) (fuel : nat),
        read_header data src_offset = Return header ->
        (Z.to_nat (Z.shiftr header 8) <= fuel)%nat ->
        while_loop fuel data (Z.shiftr header 8)
          (initial_state src_offset (Z.shiftr header 8))
        = while_loop (Z.to_nat (Z.shiftr header 8)) data (Z.shiftr header 8)
            (initial_state src_offset (Z.shiftr header 8))).
Proof.
  splits.
  - destruct (decompress_cases data src_offset)
      as [[_ E]|[E|(h & st & _ & _ & E & _)]]; rewrite E; discriminate.
  - intros size st Hinv Hlt.
    eapply post_weaken; [apply round_post; assumption|].
    cbn beta. intros st' ((_ & ? & _) & ? & _). lia.
  - intros header fuel Hh Hfuel.
    pose proof (read_header_size_range _ _ _ Hh) as [Hsz _].
    apply while_loop_fuel_irrelevant; cbn [initial_state d];
      [apply initial_state_inv, Hsz|lia|lia].
Qed.

(** C8. The cursor never exceeds the declared size. Every loop keeps the
    invariant [0 <= d <= size] on a buffer of [size] bytes; the copy of a
    reference ends at [min (d + length) size], so an overrunning reference
    stops exactly at the declared size; once [d = size] the remaining bits
    of the flag byte are skipped and the [while] loop ends; and whenever
    [decompress_lz77] returns, the output has exactly the declared number
    of bytes. *)
Theorem cursor_bounded_output_exact (data : list byte) (size : Z) :
  (forall (n : nat) (offset : Z) (out : list byte) (d : Z),
      inv size out d ->
      post (copy_loop n size offset out d)
           (fun r => inv size (fst r) (snd r)
                     /\ snd r = Z.min (d + Z.of_nat n) size))
  /\ (forall (n : nat) (flags : Z) (st : state),
        inv_state size st ->
        post (bit_loop n data size flags st) (inv_state size))
  /\ (forall (n : nat) (flags : Z) (st : state),
        d st = size -> bit_loop n data size flags st = Return st)
  /\ (forall (fuel : nat) (st : state),
        d st = size -> while_loop fuel data size st = Return st)
  /\ (forall (fuel : nat) (st : state),
        inv_state size st -> size - d st <= Z.of_nat fuel ->
        post (while_loop fuel data size st)
             (fun st' => inv_state size st' /\ d st' = size))
  /\ (forall (src_offset header : Z) (out : list byte),
        read_header data src_offset = Return header ->
        Z.shiftr header 8 = size ->
        decompress_lz77 data src_offset = Return out ->
        Z.of_nat (length out) = size).
Proof.
  splits.
  - intros. now apply copy_loop_post.
  - intros n flags st Hinv.
    eapply post_weaken; [apply bit_loop_post, Hinv|]. cbn beta. tauto.
  - intros n flags st Hd. destruct n; cbn [bit_loop]; [reflexivity|].
    destruct (Z.leb_spec size (d st)); [reflexivity|lia].
  - intros fuel st Hd. destruct fuel; cbn [while_loop];
      destruct (Z.ltb_spec (d st) size); try reflexivity; lia.
  - intros fuel st Hinv Hfuel.
    eapply post_weaken; [apply while_loop_post; assumption|]. cbn beta. tauto.
  - intros src_offset header out Hh Hsz Hout.
    destruct (decompress_cases data src_offset)
      as [[_ E]|[E|(h & st & Hh' & _ & E & Hinv & _)]];
      rewrite E in Hout; try discriminate.
    injection Hout as <-. rewrite Hh in Hh'. injection Hh' as <-.
    rewrite <- Hsz. apply Hinv.
Qed.

Lemma cursor_bounded_output_exact_witness :
  Z.of_nat (length [x41; x41; x41; x41; x42]) = 5.
Proof.
  apply (proj2 (proj2 (proj2 (proj2 (proj2
           (cursor_bounded_output_exact (example_input x10) 5)))))
           0 (Py.u32_le x10 x05 x00 x00));
    vm_compute; reflexivity.
Defined.

(** Every copy whose reads are inside the buffer, cut or not, wrapped or
    not. [m = min n (size - d)] bytes are written. The byte written at
    [d + j] is the byte read at index [d + j - offset]: for an index that is
    not negative, the byte at that position of the buffer after the copy;
    for a negative index, the byte at [size + d + j - offset], as it is
    after the copy when that position is below [d + j] and as it was before
    the copy otherwise. *)
Lemma copy_loop_general (n : nat) (size offset : Z) :
  forall (out : list byte) (d : Z),
  Z.of_nat (length out) = size -> 0 <= d <= size ->
  1 <= offset -> offset - d <= size ->
  exists out',
    copy_loop n size offset out d
    = Return (out', d + Z.min (Z.of_nat n) (size - d))
    /\ length out' = length out
    /\ (forall k : nat,
          Z.of_nat k < d \/ d + Z.min (Z.of_nat n) (size - d) <= Z.of_nat k ->
          out' !! k = out !! k)
    /\ (forall j : Z,
          0 <= j < Z.min (Z.of_nat n) (size - d) ->
          out' !! Z.to_nat (d + j)
          = if 0 <=? d + j - offset
            then out' !! Z.to_nat (d + j - offset)
            else if size + d + j - offset <? d + j
                 then out' !! Z.to_nat (size + d + j - offset)
                 else out !! Z.to_nat (size + d + j - offset)).
Proof.
  induction n as [|n IH]; intros out d Hlen Hd Hoff Hin; cbn [copy_loop].
  - exists out. replace (Z.min (Z.of_nat 0) (size - d)) with 0 by lia.
    rewrite Z.add_0_r. splits; auto. intros j Hj. lia.
  - destruct (Z.leb_spec size d) as [Hge|Hlt].
    + exists out. replace (Z.min (Z.of_nat (S n)) (size - d)) with 0 by lia.
      rewrite Z.add_0_r. splits; auto. intros j Hj. lia.
    + assert (exists b,
                 Py.getitem out (d - offset) = Return b
                 /\ out !! Z.to_nat (if 0 <=? d - offset then d - offset
                                     else size + d - offset) = Some b)
        as (b & Hget & Hb).
      { destruct (Z.leb_spec 0 (d - offset)).
        - destruct (getitem_nonneg out (d - offset)) as (b & ? & ?); [lia|].
          now exists b.
        - destruct (getitem_neg out (d - offset)) as (b & Hb & ?); [lia|].
          exists b. split; [assumption|]. rewrite <- Hb. f_equal. lia. }
      rewrite Hget. cbn [bind]. rewrite setitem_in by lia. cbn [bind].
      destruct (IH (<[Z.to_nat d := b]> out) (d + 1))
        as (out' & Hrun & Hl & Hold & Hcopy);
        [now rewrite length_insert|lia|lia|lia|].
      rewrite length_insert in Hl.
      replace (Z.min (Z.of_nat (S n)) (size - d))
        with (1 + Z.min (Z.of_nat n) (size - (d + 1))) by lia.
      exists out'. rewrite Hrun. splits.
      * f_equal. f_equal. lia.
      * exact Hl.
      * intros k Hk. rewrite Hold by lia. apply list_lookup_insert_ne. lia.
      * intros j Hj. destruct (Z.eq_dec j 0) as [->|Hne].
        -- rewrite !Z.add_0_r. rewrite Hold by lia.
           rewrite list_lookup_insert_eq by lia.
           destruct (Z.leb_spec 0 (d - offset)).
           ++ rewrite Hold by lia. rewrite list_lookup_insert_ne by lia.
              now rewrite Hb.
           ++ destruct (Z.ltb_spec (size + d - offset) d).
              ** rewrite Hold by lia. rewrite list_lookup_insert_ne by lia.
                 now rewrite Hb.
              ** now rewrite Hb.
        -- replace (d + j) with (d + 1 + (j - 1)) by lia.
           rewrite Hcopy by lia.
           replace (d + 1 + (j - 1) - offset) with (d + j - offset) by lia.
           replace (size + (d + 1) + (j - 1) - offset)
             with (size + d + j - offset) by lia.
           destruct (Z.leb_spec 0 (d + j - offset)); [reflexivity|].
           destruct (Z.ltb_spec (size + d + j - offset) (d + 1 + (j - 1)));
             [reflexivity|].
           apply list_lookup_insert_ne. lia.
Qed.

(** C2, the counterexample. With declared size 2, after the literal
    [0x41] the reference [0x00 0x00] has length 3 and distance 1, and the
    copy stops at the declared size: one byte is copied, not three. *)
Lemma cut_reference_counterexample :
  ref_length (Py.int x00) = 3
  /\ reference_unit [x10; x02; x00; x00; x40; x41; x00; x00] 2
       (State 6 1 [x41; x00])
     = Return (State 8 2 [x41; x41])
  /\ decompress_lz77 [x10; x02; x00; x00; x40; x41; x00; x00] 0
     = Return [x41; x41].
Proof. splits; vm_compute; reflexivity. Qed.

(** C2, amended. A reference unit reads [byte1] and [byte2] and computes
    [length = ((byte1 >> 4) & 0xF) + 3], between 3 and 18, and
    [distance = (((byte1 & 0xF) << 8) | byte2) + 1], between 1 and 4096.
    The copy is made one byte at a time: an iteration reads
    [out[d - distance]], writes it at [out[d]] and then increments [d]; it
    stops after [length] iterations or when [d] reaches [size]. So in every
    state in which a unit is decoded (a buffer of [size] bytes, [0 <= d <
    size]) the unit raises [IndexError] when [distance - d > size], and
    otherwise writes exactly [min length (size - d)] bytes at [d], [d + 1],
    ..., and nothing else: the byte written at [d + j] is the one read at
    the index [d + j - distance] under Python's indexing, which is a byte
    that this same copy has written whenever [distance <= j]. *)
Theorem reference_decode_and_copy
        (data : list byte) (size : Z) (st : state) (b1 b2 : byte) :
  Py.getitem data (s st) = Return b1 ->
  Py.getitem data (s st + 1) = Return b2 ->
  Z.of_nat (length (out st)) = size ->
  0 <= d st < size ->
  let len := ref_length (Py.int b1) in
  let dist := ref_offset (Py.int b1) (Py.int b2) in
  let m := Z.min len (size - d st) in
  len = Z.land (Z.shiftr (Py.int b1) 4) 15 + 3
  /\ dist = Z.lor (Z.shiftl (Z.land (Py.int b1) 15) 8) (Py.int b2) + 1
  /\ 3 <= len <= 18
  /\ 1 <= dist <= 4096
  /\ reference_unit data size st
     = (let* r := copy_loop (Z.to_nat len) size dist (out st) (d st) in
        Return (State (s st + 2) (snd r) (fst r)))
  /\ (forall (n : nat) (out : list byte) (d : Z),
        d < size ->
        copy_loop (S n) size dist out d
        = let* b := Py.getitem out (d - dist) in
          let* out' := Py.setitem out d b in
          copy_loop n size dist out' (d + 1))
  /\ (forall (n : nat) (out : list byte) (d : Z),
        size <= d -> copy_loop n size dist out d = Return (out, d))
  /\ (size < dist - d st -> reference_unit data size st = Raise IndexError)
  /\ (dist - d st <= size ->
      exists out',
        reference_unit data size st = Return (State (s st + 2) (d st + m) out')
        /\ length out' = length (out st)
        /\ (forall k : nat, Z.of_nat k < d st \/ d st + m <= Z.of_nat k ->
                            out' !! k = out st !! k)
        /\ (forall j : Z,
              0 <= j < m ->
              out' !! Z.to_nat (d st + j)
              = if 0 <=? d st + j - dist
                then out' !! Z.to_nat (d st + j - dist)
                else if size + d st + j - dist <? d st + j
                     then out' !! Z.to_nat (size + d st + j - dist)
                     else out st !! Z.to_nat (size + d st + j - dist))).
Proof.
  intros H1 H2 Hsize Hd len dist m.
  pose proof (ref_length_range (Py.int b1)) as Hlen.
  pose proof (ref_offset_range (Py.int b1) (Py.int b2) (int_range b2)) as Hdist.
  fold len in Hlen. fold dist in Hdist.
  assert (reference_unit data size st
          = (let* r := copy_loop (Z.to_nat len) size dist (out st) (d st) in
             Return (State (s st + 2) (snd r) (fst r)))) as Hunit.
  { unfold reference_unit. rewrite H1. cbn [bind]. rewrite H2. reflexivity. }
  splits; try reflexivity; try lia; try exact Hunit.
  - intros n out d Hlt. cbn [copy_loop].
    destruct (Z.leb_spec size d); [lia|reflexivity].
  - intros n out d Hge. destruct n; cbn [copy_loop]; [reflexivity|].
    destruct (Z.leb_spec size d); [reflexivity|lia].
  - intros Hfar. rewrite Hunit.
    destruct (Z.to_nat len) as [|n] eqn:E; [lia|].
    rewrite copy_loop_raises; [reflexivity|assumption|lia|lia].
  - intros Hnear. rewrite Hunit.
    destruct (copy_loop_general (Z.to_nat len) size dist (out st) (d st))
      as (out' & Hrun & Hl & Hold & Hcopy); [assumption|lia|lia|lia|].
    rewrite Z2Nat.id in * by lia. fold m in Hrun, Hold, Hcopy.
    exists out'. rewrite Hrun. cbn [bind fst snd]. auto.
Qed.

Lemma reference_decode_and_copy_witness :
  reference_unit [x10; x02; x00; x00; x40; x41; x00; x00] 2 (State 6 1 [x41; x00])
  = (let* r := copy_loop (Z.to_nat (ref_length (Py.int x00))) 2
                 (ref_offset (Py.int x00) (Py.int x00)) [x41; x00] 1 in
     Return (State (6 + 2) (snd r) (fst r))).
Proof.
  destruct (reference_decode_and_copy
              [x10; x02; x00; x00; x40; x41; x00; x00] 2
              (State 6 1 [x41; x00]) x00 x00
              eq_refl eq_refl eq_refl ltac:(cbn; lia))
    as (_ & _ & _ & _ & H & _).
  exact H.
Defined.

(** C3, the counterexample. With declared size 1 and a reference as the
    first unit, the cursor is 0 and the distance is at least 1. For the
    bytes [0x00 0x00] (distance 1) the call returns [[0x00]]; for the bytes
    [0x0F 0xFF] (distance 4096) it raises [IndexError]. Neither is a
    [ReferenceOutOfRangeError]. *)
Lemma reference_at_cursor_zero_counterexample :
  decompress_lz77 [x10; x01; x00; x00; x80; x00; x00] 0 = Return [x00]
  /\ decompress_lz77 [x10; x01; x00; x00; x80; x0f; xff] 0 = Raise IndexError.
Proof. split; vm_compute; reflexivity. Qed.

(** C3, amended. A reference unit whose distance exceeds the cursor never
    fails with [ReferenceOutOfRangeError], and no call of [decompress_lz77]
    does: when [distance - cursor <= size] the unit completes and the
    invariant still holds; when [distance - cursor > size] it raises
    [IndexError]. *)
Theorem reference_beyond_cursor_no_range_error
        (data : list byte) (size : Z) (st : state) (b1 b2 : byte) :
  inv_state size st -> d st < size ->
  Py.getitem data (s st) = Return b1 ->
  Py.getitem data (s st + 1) = Return b2 ->
  d st < ref_offset (Py.int b1) (Py.int b2) ->
  (ref_offset (Py.int b1) (Py.int b2) - d st <= size ->
   exists st', reference_unit data size st = Return st' /\ inv_state size st')
  /\ (size < ref_offset (Py.int b1) (Py.int b2) - d st ->
      reference_unit data size st = Raise IndexError)
  /\ reference_unit data size st <> Raise ReferenceOutOfRangeError
  /\ (forall (data' : list byte) (src_offset : Z),
        decompress_lz77 data' src_offset <> Raise ReferenceOutOfRangeError).
Proof.
  intros Hinv Hlt H1 H2 Hfar.
  pose proof (ref_length_range (Py.int b1)) as Hlen.
  pose proof (reference_unit_post data size st Hinv Hlt) as Hpost.
  splits.
  - intros Hwrap.
    destruct (copy_loop_returns (Z.to_nat (ref_length (Py.int b1))) size
                (ref_offset (Py.int b1) (Py.int b2)) (out st) (d st))
      as [r Hr]; [exact Hinv|destruct Hinv as (_ & ? & _); lia|lia|].
    unfold reference_unit in *. rewrite H1 in *. cbn [bind] in *.
    rewrite H2 in *. cbn [bind] in *. cbv zeta in *. rewrite Hr in *.
    cbn [bind] in *. eexists. split; [reflexivity|]. apply Hpost.
  - intros Hout. unfold reference_unit. rewrite H1. cbn [bind].
    rewrite H2. cbn [bind]. cbv zeta.
    destruct (Z.to_nat (ref_length (Py.int b1))) as [|n] eqn:E; [lia|].
    rewrite copy_loop_raises; [reflexivity|apply Hinv|lia|lia].
  - intros E. rewrite E in Hpost. discriminate Hpost.
  - intros data' src_offset.
    destruct (decompress_cases data' src_offset)
      as [[_ E]|[E|(h & st' & _ & _ & E & _)]]; rewrite E; discriminate.
Qed.

Lemma reference_beyond_cursor_witness :
  exists st',
    reference_unit [x10; x01; x00; x00; x80; x00; x00] 1 (State 5 0 [x00])
    = Return st' /\ inv_state 1 st'.
Proof.
  assert (inv_state 1 (State 5 0 [x00])) as Hinv by apply (inv_init 1 ltac:(lia)).
  apply (reference_beyond_cursor_no_range_error
           [x10; x01; x00; x00; x80; x00; x00] 1 (State 5 0 [x00]) x00 x00
           Hinv ltac:(cbn; lia) eq_refl eq_refl ltac:(vm_compute; reflexivity)).
  vm_compute. discriminate.
Defined.

(** C4, the counterexample. With declared size 5, after the literal
    [0x41] the reference [0x00 0x01] has distance 2 at cursor 1, and
    [distance - cursor = 1 <= 5]: the unit returns, having read [out[-1]],
    but the call does not return normally. The next unit is a literal, the
    source has no byte left for it, and the call raises [IndexError]. *)
Lemma wrapped_reference_counterexample :
  ref_offset (Py.int x00) (Py.int x01) = 2
  /\ reference_unit [x10; x05; x00; x00; x40; x41; x00; x01] 5
       (State 6 1 [x41; x00; x00; x00; x00])
     = Return (State 8 4 [x41; x00; x41; x00; x00])
  /\ decompress_lz77 [x10; x05; x00; x00; x40; x41; x00; x01] 0
     = Raise IndexError.
Proof. splits; vm_compute; reflexivity. Qed.

(** C4, amended. A reference unit whose distance exceeds the cursor is
    not checked. When [distance - cursor <= size] the read
    [out[d - distance]] has a negative index and returns the byte at
    position [size + d - distance]; that byte is still zero when
    [distance <= size], because nothing at or after the cursor has been
    written; the unit completes without an exception and the decode goes on
    with the next bit of the flag byte. The unit can raise only
    [IndexError], and it does exactly when [distance - cursor > size]. *)
Theorem negative_index_read
        (data : list byte) (size : Z) (st : state) (b1 b2 : byte) :
  inv_state size st -> d st < size ->
  Py.getitem data (s st) = Return b1 ->
  Py.getitem data (s st + 1) = Return b2 ->
  let dist := ref_offset (Py.int b1) (Py.int b2) in
  d st < dist ->
  (dist - d st <= size ->
   exists b,
     out st !! Z.to_nat (size + d st - dist) = Some b
     /\ Py.getitem (out st) (d st - dist) = Return b
     /\ (dist <= size -> b = x00)
     /\ exists st',
          reference_unit data size st = Return st'
          /\ inv_state size st'
          /\ forall (n : nat) (flags : Z),
               flag_set flags n = true ->
               bit_loop (S n) data size flags st
               = bit_loop n data size flags st')
  /\ (forall e, reference_unit data size st = Raise e ->
                e = IndexError /\ size < dist - d st)
  /\ (size < dist - d st ->
      Py.getitem (out st) (d st - dist) = Raise IndexError
      /\ reference_unit data size st = Raise IndexError).
Proof.
  intros Hinv Hlt H1 H2 dist Hfar.
  pose proof (ref_length_range (Py.int b1)) as Hlen.
  pose proof Hinv as (Hsize & Hd & Hzero).
  assert (reference_unit data size st
          = (let* r := copy_loop (Z.to_nat (ref_length (Py.int b1))) size dist
                         (out st) (d st) in
             Return (State (s st + 2) (snd r) (fst r)))) as Hunit.
  { unfold reference_unit. rewrite H1. cbn [bind]. rewrite H2. reflexivity. }
  assert (dist - d st <= size ->
          exists st', reference_unit data size st = Return st') as Hok.
  { intros Hwrap. rewrite Hunit.
    destruct (copy_loop_returns (Z.to_nat (ref_length (Py.int b1))) size dist
                (out st) (d st) Hinv) as [r ->]; [lia|lia|].
    cbn [bind]. eauto. }
  assert (size < dist - d st ->
          reference_unit data size st = Raise IndexError) as Hbad.
  { intros Hout. rewrite Hunit.
    destruct (Z.to_nat (ref_length (Py.int b1))) as [|n] eqn:E; [lia|].
    rewrite copy_loop_raises; [reflexivity|assumption|lia|lia]. }
  splits.
  - intros Hwrap.
    destruct (getitem_neg (out st) (d st - dist)) as (b & Hb & Hget); [lia|].
    exists b. rewrite Hsize in Hb.
    replace (size + (d st - dist)) with (size + d st - dist) in Hb by lia.
    splits; [exact Hb|exact Hget| |].
    + intros Hle.
      apply (Hzero (Z.to_nat (size + d st - dist)) b); [lia|exact Hb].
    + destruct (Hok Hwrap) as [st' Hst']. exists st'.
      pose proof (reference_unit_post data size st Hinv Hlt) as Hpost.
      rewrite Hst' in Hpost. destruct Hpost as (Hinv' & _).
      splits; [exact Hst'|exact Hinv'|].
      intros n flags Hflag. cbn [bit_loop].
      destruct (Z.leb_spec size (d st)); [lia|].
      rewrite Hflag, Hst'. reflexivity.
  - intros e He. destruct (Z.leb_spec (dist - d st) size) as [Hwrap|Hout].
    + destruct (Hok Hwrap) as [st' Hst']. rewrite Hst' in He. discriminate.
    + rewrite (Hbad Hout) in He. injection He as <-. split; [reflexivity|lia].
  - intros Hout. split; [|exact (Hbad Hout)].
    apply getitem_out. lia.
Qed.

Lemma negative_index_read_witness :
  exists b,
    [x41; x00; x00] !! Z.to_nat (3 + 1 - 2) = Some b
    /\ Py.getitem [x41; x00; x00] (1 - 2) = Return b
    /\ (2 <= 3 -> b = x00)
    /\ exists st',
         reference_unit [x00; x01] 3 (State 0 1 [x41; x00; x00]) = Return st'
         /\ inv_state 3 st'
         /\ forall (n : nat) (flags : Z),
              flag_set flags n = true ->
              bit_loop (S n) [x00; x01] 3 flags (State 0 1 [x41; x00; x00])
              = bit_loop n [x00; x01] 3 flags st'.
Proof.
  assert (inv_state 3 (State 0 1 [x41; x00; x00])) as Hinv.
  { unfold inv_state, inv, zero_from. cbn [out d length]. splits; try lia.
    intros [|[|[|k]]] b Hk Hb; try lia; try (now injection Hb as <-).
    now destruct k. }
  apply (negative_index_read [x00; x01] 3 (State 0 1 [x41; x00; x00]) x00 x01
           Hinv ltac:(cbn; lia) eq_refl eq_refl ltac:(vm_compute; reflexivity)).
  vm_compute. discriminate.
Defined.

(** ** A source cut short *)

Lemma bit_loop_s_mono (n : nat) (data : list byte) (size flags : Z) :
  forall st st' : state,
  bit_loop n data size flags st = Return st' -> s st <= s st'.
Proof.
  induction n as [|n IH]; intros st st'; cbn [bit_loop].
  - intros [= <-]. lia.
  - destruct (Z.leb_spec size (d st)); [intros [= <-]; lia|].
    destruct (flag_set flags n).
    + destruct (reference_unit data size st) as [st1| |] eqn:E;
        cbn [bind]; try discriminate.
      apply reference_unit_s in E. intros Hr. apply IH in Hr. lia.
    + destruct (literal_unit data st) as [st1| |] eqn:E;
        cbn [bind]; try discriminate.
      apply literal_unit_s in E. intros Hr. apply IH in Hr. lia.
Qed.

Lemma round_s_mono (data : list byte) (size : Z) (st st' : state) :
  round data size st = Return st' -> s st < s st'.
Proof.
  unfold round.
  destruct (Py.getitem data (s st)); cbn [bind]; try discriminate.
  intros Hr. apply bit_loop_s_mono in Hr. cbn in Hr. lia.
Qed.

Lemma while_loop_s_mono (fuel : nat) (data : list byte) (size : Z) :
  forall st st' : state,
  while_loop fuel data size st = Return st' -> s st <= s st'.
Proof.
  induction fuel as [|fuel IH]; intros st st'; cbn [while_loop];
    destruct (Z.ltb_spec (d st) size); try discriminate;
    try (intros [= <-]; lia).
  destruct (round data size st) as [st1| |] eqn:E; cbn [bind]; try discriminate.
  apply round_s_mono in E. intros Hr. apply IH in Hr. lia.
Qed.

(** Decoding from the first [n] bytes of [data] goes as decoding from
    [data] does until a byte at or after [n] is due, and then raises. *)
Section Truncate.
Variables (data : list byte) (n : nat).

Lemma getitem_take_lt (i : Z) :
  0 <= i < Z.of_nat n -> Py.getitem (take n data) i = Py.getitem data i.
Proof.
  intros Hi. destruct (Z.ltb_spec i (Z.of_nat (length data))) as [Hin|Hout].
  - destruct (getitem_nonneg data i) as (x & Hx & ->); [lia|].
    destruct (getitem_nonneg (take n data) i) as (y & Hy & ->).
    { rewrite length_take. lia. }
    rewrite lookup_take_lt in Hy by lia. congruence.
  - rewrite !getitem_out; [reflexivity|lia|rewrite length_take; lia].
Qed.

Lemma getitem_take_ge (i : Z) :
  Z.of_nat n <= i -> Py.getitem (take n data) i = Raise IndexError.
Proof. intros Hi. apply getitem_out. rewrite length_take. lia. Qed.

Lemma literal_unit_take (st st' : state) :
  0 <= s st -> literal_unit data st = Return st' ->
  (s st' <= Z.of_nat n -> literal_unit (take n data) st = Return st')
  /\ (Z.of_nat n < s st' -> literal_unit (take n data) st = Raise IndexError).
Proof.
  intros Hs H. pose proof (literal_unit_s _ _ _ H) as Hs'. split.
  - intros Hle. rewrite <- H. unfold literal_unit.
    now rewrite getitem_take_lt by lia.
  - intros Hgt. unfold literal_unit.
    now rewrite getitem_take_ge by lia.
Qed.

Lemma reference_unit_take (size : Z) (st st' : state) :
  0 <= s st -> reference_unit data size st = Return st' ->
  (s st' <= Z.of_nat n -> reference_unit (take n data) size st = Return st')
  /\ (Z.of_nat n < s st' ->
      reference_unit (take n data) size st = Raise IndexError).
Proof.
  intros Hs H. pose proof (reference_unit_s _ _ _ _ H) as Hs'. split.
  - intros Hle. rewrite <- H. unfold reference_unit.
    now rewrite !getitem_take_lt by lia.
  - intros Hgt. unfold reference_unit in H |- *.
    destruct (Z.ltb_spec (s st) (Z.of_nat n)) as [Hin|Hout].
    + rewrite getitem_take_lt by lia.
      destruct (Py.getitem data (s st)); cbn [bind] in H |- *;
        try discriminate.
      now rewrite getitem_take_ge by lia.
    + now rewrite getitem_take_ge by lia.
Qed.

Lemma bit_loop_take (k : nat) (size flags : Z) :
  forall st st' : state,
  0 <= s st <= Z.of_nat n ->
  bit_loop k data size flags st = Return st' ->
  (s st' <= Z.of_nat n -> bit_loop k (take n data) size flags st = Return st')
  /\ (Z.of_nat n < s st' ->
      bit_loop k (take n data) size flags st = Raise IndexError).
Proof.
  induction k as [|k IH]; intros st st' Hs; cbn [bit_loop].
  - intros [= <-]. split; [reflexivity|lia].
  - destruct (Z.leb_spec size (d st)); [intros [= <-]; split; [reflexivity|lia]|].
    assert (forall unit : list byte -> state -> outcome state,
               (forall st1, unit data st = Return st1 ->
                            s st < s st1
                            /\ (s st1 <= Z.of_nat n ->
                                unit (take n data) st = Return st1)
                            /\ (Z.of_nat n < s st1 ->
                                unit (take n data) st = Raise IndexError)) ->
               (let* st1 := unit data st in bit_loop k data size flags st1)
               = Return st' ->
               (s st' <= Z.of_nat n ->
                (let* st1 := unit (take n data) st in
                 bit_loop k (take n data) size flags st1) = Return st')
               /\ (Z.of_nat n < s st' ->
                   (let* st1 := unit (take n data) st in
                    bit_loop k (take n data) size flags st1)
                   = Raise IndexError)) as Hstep.
    { intros unit Hunit.
      destruct (unit data st) as [st1| |] eqn:E; cbn [bind]; try discriminate.
      destruct (Hunit st1 eq_refl) as (Hadv & Hsame & Hcut). intros Hrest.
      pose proof (bit_loop_s_mono _ _ _ _ _ _ Hrest) as Hmono.
      destruct (Z.le_gt_cases (s st1) (Z.of_nat n)) as [Hle|Hgt].
      - rewrite (Hsame Hle). cbn [bind]. apply IH; [lia|exact Hrest].
      - rewrite (Hcut ltac:(lia)). cbn [bind]. split; [lia|reflexivity]. }
    destruct (flag_set flags k).
    + apply (Hstep (fun dt => reference_unit dt size)).
      intros st1 E. pose proof (reference_unit_s _ _ _ _ E).
      split; [lia|]. apply reference_unit_take; [lia|exact E].
    + apply (Hstep literal_unit).
      intros st1 E. pose proof (literal_unit_s _ _ _ E).
      split; [lia|]. apply literal_unit_take; [lia|exact E].
Qed.

Lemma round_take (size : Z) (st st' : state) :
  0 <= s st <= Z.of_nat n ->
  round data size st = Return st' ->
  (s st' <= Z.of_nat n -> round (take n data) size st = Return st')
  /\ (Z.of_nat n < s st' -> round (take n data) size st = Raise IndexError).
Proof.
  intros Hs H. pose proof (round_s_mono _ _ _ _ H) as Hadv.
  unfold round in *.
  destruct (Z.ltb_spec (s st) (Z.of_nat n)) as [Hin|Hout].
  - rewrite getitem_take_lt by lia.
    destruct (Py.getitem data (s st)) as [f| |]; cbn [bind] in *;
      try discriminate.
    apply bit_loop_take; [cbn; lia|exact H].
  - rewrite getitem_take_ge by lia. cbn [bind]. split; [lia|reflexivity].
Qed.

Lemma while_loop_take (fuel : nat) (size : Z) :
  forall st st' : state,
  0 <= s st <= Z.of_nat n ->
  while_loop fuel data size st = Return st' ->
  (s st' <= Z.of_nat n -> while_loop fuel (take n data) size st = Return st')
  /\ (Z.of_nat n < s st' ->
      while_loop fuel (take n data) size st = Raise IndexError).
Proof.
  induction fuel as [|fuel IH]; intros st st' Hs; cbn [while_loop];
    destruct (Z.ltb_spec (d st) size); try discriminate;
    try (intros [= <-]; split; [reflexivity|lia]).
  destruct (round data size st) as [st1| |] eqn:E; cbn [bind]; try discriminate.
  intros Hrest. pose proof (while_loop_s_mono _ _ _ _ _ Hrest) as Hmono.
  pose proof (round_s_mono _ _ _ _ E) as Hadv.
  destruct (round_take _ _ _ Hs E) as [Hsame Hcut].
  destruct (Z.le_gt_cases (s st1) (Z.of_nat n)) as [Hle|Hgt].
  - rewrite (Hsame Hle). cbn [bind]. apply IH; [lia|exact Hrest].
  - rewrite (Hcut ltac:(lia)). cbn [bind]. split; [lia|reflexivity].
Qed.

Lemma read_header_take (src_offset header : Z) :
  0 <= src_offset -> src_offset + 4 <= Z.of_nat n ->
  read_header data src_offset = Return header ->
  read_header (take n data) src_offset = Return header.
Proof.
  intros Hoff Hn Hh. pose proof (read_header_end _ _ _ Hh) as Hend.
  unfold read_header in *. replace (Py.slice (take n data) _ _)
    with (Py.slice data src_offset (src_offset + 4)); [exact Hh|].
  unfold Py.slice, Py.clamp. rewrite length_take.
  destruct (Z.ltb_spec src_offset 0); [lia|].
  destruct (Z.ltb_spec (src_offset + 4) 0); [lia|].
  replace (Z.to_nat (Z.min src_offset (Z.of_nat (n `min` length data))))
    with (Z.to_nat src_offset) by lia.
  replace (Z.to_nat (Z.min (src_offset + 4) (Z.of_nat (n `min` length data))))
    with (Z.to_nat src_offset + 4)%nat by lia.
  replace (Z.to_nat (Z.min src_offset (Z.of_nat (length data))))
    with (Z.to_nat src_offset) by lia.
  replace (Z.to_nat (Z.min (src_offset + 4) (Z.of_nat (length data))))
    with (Z.to_nat src_offset + 4)%nat by lia.
  replace (Z.to_nat src_offset + 4 - Z.to_nat src_offset)%nat with 4%nat by lia.
  apply list_eq. intros i.
  destruct (Nat.lt_ge_cases i 4) as [Hi|Hi].
  - rewrite !lookup_take_lt, !lookup_drop by assumption.
    symmetry. apply lookup_take_lt. lia.
  - now rewrite !lookup_take_ge by assumption.
Qed.

(** A block that decodes, cut anywhere inside its stream. *)
Lemma decode_take (src_offset size : Z) (st : state) :
  0 <= src_offset -> src_offset + 4 <= Z.of_nat n ->
  decode data src_offset = Return (size, st) ->
  Z.of_nat n < s st ->
  decode (take n data) src_offset = Raise IndexError.
Proof.
  intros Hoff Hn H Hcut. unfold decode in *.
  destruct (read_header data src_offset) as [h| |] eqn:Hh; cbn [bind] in H;
    try discriminate.
  rewrite (read_header_take _ _ Hoff Hn Hh). cbn [bind]. cbv zeta in *.
  destruct (while_loop _ data _ _) as [st1| |] eqn:E; cbn [bind] in H;
    try discriminate.
  injection H as <- <-.
  apply while_loop_take in E as [_ E]; [|cbn; lia].
  rewrite (E Hcut). reflexivity.
Qed.
End Truncate.

(** C5, the counterexample. The source ends before the flag byte, inside
    a reference, and before a literal: each call raises [IndexError], not
    [TruncatedStreamError]. *)
Lemma truncated_stream_counterexample :
  decompress_lz77 [x10; x01; x00; x00] 0 = Raise IndexError
  /\ decompress_lz77 [x10; x01; x00; x00; x80; x00] 0 = Raise IndexError
  /\ decompress_lz77 [x10; x01; x00; x00; x00] 0 = Raise IndexError.
Proof. splits; vm_compute; reflexivity. Qed.

(** C5, amended. When the source is exhausted before a flag byte, a
    literal byte or the two bytes of a reference can be read, that is when
    [s >= len(data)], or [s + 1 >= len(data)] for a reference,
    [decompress_lz77] raises Python's [IndexError]; it never raises
    [TruncatedStreamError], no read that returns a byte is at or past the
    end of the source, and when the call returns [s] is at most the length
    of the source. For an offset that is not negative, the call raises
    [IndexError] when the source ends right after the header or inside the
    first unit after the first flag byte while output is still to be
    produced, and whenever the source of a block that decodes is cut
    anywhere between the end of its header and the end of its stream. *)
Theorem source_exhausted_IndexError (data : list byte) (size : Z) (st : state) :
  d st < size ->
  (forall (i : Z) (x : byte),
      Py.getitem data i = Return x -> i < Z.of_nat (length data))
  /\ (Z.of_nat (length data) <= s st ->
      round data size st = Raise IndexError
      /\ while_loop (S (Z.to_nat size)) data size st = Raise IndexError)
  /\ (forall (n : nat) (flags : Z),
        flag_set flags n = false ->
        Z.of_nat (length data) <= s st ->
        bit_loop (S n) data size flags st = Raise IndexError)
  /\ (forall (n : nat) (flags : Z),
        flag_set flags n = true ->
        Z.of_nat (length data) <= s st + 1 ->
        bit_loop (S n) data size flags st = Raise IndexError)
  /\ (forall src_offset header : Z,
        0 <= src_offset ->
        read_header data src_offset = Return header ->
        0 < Z.shiftr header 8 ->
        Z.of_nat (length data) <= src_offset + 4 ->
        decompress_lz77 data src_offset = Raise IndexError)
  /\ (forall (src_offset header : Z) (flags : byte),
        0 <= src_offset ->
        read_header data src_offset = Return header ->
        0 < Z.shiftr header 8 ->
        Py.getitem data (src_offset + 4) = Return flags ->
        Z.of_nat (length data)
          <= src_offset + (if flag_set (Py.int flags) 7 then 6 else 5) ->
        decompress_lz77 data src_offset = Raise IndexError)
  /\ (forall (src_offset size' : Z) (st' : state),
        decode data src_offset = Return (size', st') ->
        s st' <= Z.of_nat (length data))
  /\ (forall (src_offset size' : Z) (st' : state) (n : nat),
        0 <= src_offset ->
        decode data src_offset = Return (size', st') ->
        src_offset + 4 <= Z.of_nat n < s st' ->
        decompress_lz77 (take n data) src_offset = Raise IndexError)
  /\ (forall src_offset : Z,
        decompress_lz77 data src_offset <> Raise TruncatedStreamError).
Proof.
  intros Hlt. splits.
  - intros i x H. apply getitem_Return in H. lia.
  - intros Hs. rewrite <- (round_exhausted data size st Hs) at 2.
    split; [apply round_exhausted, Hs|]. cbn [while_loop].
    destruct (Z.ltb_spec (d st) size); [|lia].
    rewrite round_exhausted by assumption. reflexivity.
  - intros n flags Hflag Hs. cbn [bit_loop].
    destruct (Z.leb_spec size (d st)); [lia|].
    rewrite Hflag, literal_unit_exhausted by assumption. reflexivity.
  - intros n flags Hflag Hs. cbn [bit_loop].
    destruct (Z.leb_spec size (d st)); [lia|].
    rewrite Hflag, reference_unit_exhausted by assumption. reflexivity.
  - intros src_offset header _ Hh Hsz Hlen. unfold decompress_lz77.
    rewrite (decode_no_flag_byte _ _ _ Hh Hsz Hlen). reflexivity.
  - intros src_offset header flags _ Hh Hsz Hf Hlen. unfold decompress_lz77.
    rewrite (decode_truncated_unit _ _ _ _ Hh Hsz Hf Hlen). reflexivity.
  - intros src_offset size' st' H. now apply decode_s_bound in H.
  - intros src_offset size' st' n Hoff H [Hn Hcut]. unfold decompress_lz77.
    rewrite (decode_take data n _ _ _ Hoff Hn H Hcut). reflexivity.
  - intros src_offset.
    destruct (decompress_cases data src_offset)
      as [[_ E]|[E|(h & st' & _ & _ & E & _)]]; rewrite E; discriminate.
Qed.

Lemma source_exhausted_IndexError_witness :
  decompress_lz77 [x10; x01; x00; x00; x80; x00] 0 = Raise IndexError.
Proof.
  destruct (source_exhausted_IndexError [x10; x01; x00; x00; x80; x00] 1
              (State 4 0 [x00]) ltac:(cbn; lia))
    as (_ & _ & _ & _ & _ & H & _).
  apply (H 0 (Py.u32_le x10 x01 x00 x00) x80); vm_compute; try reflexivity;
    discriminate.
Defined.

(** C6, the counterexample. The worked example decodes to the same bytes
    under the format tags [0x10] and [0x11], of which at most one can be the
    expected tag; and a header of three bytes raises [struct.error]. No
    call fails with [FormatError]. *)
Lemma format_tag_counterexample :
  decompress_lz77 (example_input x10) 0 = Return [x41; x41; x41; x41; x42]
  /\ decompress_lz77 (example_input x11) 0 = Return [x41; x41; x41; x41; x42]
  /\ decompress_lz77 [x10; x05; x00] 0 = Raise StructError.
Proof. splits; vm_compute; reflexivity. Qed.

(** C6, amended. For an offset that is not negative, the header parse
    reads the four bytes at the offset as a little-endian unsigned integer
    and takes its upper 24 bits, [header >> 8], as the declared size. The
    low 8 bits are not examined: replacing the tag byte by any other leaves
    the result of the call unchanged. When fewer than four bytes remain at
    the offset the call raises [struct.error]. No call raises
    [FormatError]. *)
Theorem header_parse_ignores_tag (data : list byte) (src_offset : Z) :
  0 <= src_offset ->
  (Z.of_nat (length data) < src_offset + 4 ->
   read_header data src_offset = Raise StructError
   /\ decompress_lz77 data src_offset = Raise StructError)
  /\ (src_offset + 4 <= Z.of_nat (length data) ->
      exists b0 b1 b2 b3 : byte,
        data !! Z.to_nat src_offset = Some b0
        /\ data !! Z.to_nat (src_offset + 1) = Some b1
        /\ data !! Z.to_nat (src_offset + 2) = Some b2
        /\ data !! Z.to_nat (src_offset + 3) = Some b3
        /\ read_header data src_offset
           = Return (Py.int b0 + 256 * Py.int b1 + 65536 * Py.int b2
                     + 16777216 * Py.int b3)
        /\ Z.shiftr (Py.int b0 + 256 * Py.int b1 + 65536 * Py.int b2
                     + 16777216 * Py.int b3) 8
           = Py.int b1 + 256 * Py.int b2 + 65536 * Py.int b3)
  /\ (forall tag : byte,
        decompress_lz77 (<[Z.to_nat src_offset := tag]> data) src_offset
        = decompress_lz77 data src_offset)
  /\ decompress_lz77 data src_offset <> Raise FormatError.
Proof.
  intros Hoff. pose proof (slice_header_length data src_offset Hoff) as Hlen.
  splits.
  - intros Hshort.
    destruct (read_header_cases data src_offset)
      as [[_ E]|(b0 & b1 & b2 & b3 & Hs & _)].
    + split; [exact E|]. unfold decompress_lz77, decode. rewrite E. reflexivity.
    + rewrite Hs in Hlen. cbn [length] in Hlen. lia.
  - intros Hfull.
    destruct (read_header_cases data src_offset)
      as [[Hne _]|(b0 & b1 & b2 & b3 & Hs & E)]; [lia|].
    exists b0, b1, b2, b3.
    assert (forall (j : nat) (b : byte),
               [b0; b1; b2; b3] !! j = Some b ->
               data !! Z.to_nat (src_offset + Z.of_nat j) = Some b) as Hbyte.
    { intros j b Hj. rewrite <- Hs in Hj. unfold Py.slice, Py.clamp in Hj.
      destruct (Z.ltb_spec src_offset 0); [lia|].
      apply lookup_take_Some in Hj as [Hj _]. rewrite lookup_drop in Hj.
      rewrite <- Hj. f_equal. lia. }
    rewrite <- u32_le_value, header_size, E.
    splits; try reflexivity.
    + rewrite <- (Z.add_0_r src_offset). now apply (Hbyte 0%nat).
    + now apply (Hbyte 1%nat).
    + now apply (Hbyte 2%nat).
    + now apply (Hbyte 3%nat).
  - intros tag. now apply decompress_tag_irrelevant.
  - destruct (decompress_cases data src_offset)
      as [[_ E]|[E|(h & st' & _ & _ & E & _)]]; rewrite E; discriminate.
Qed.

Lemma header_parse_ignores_tag_witness :
  decompress_lz77 (<[Z.to_nat 0 := xff]> (example_input x10)) 0
  = decompress_lz77 (example_input x10) 0.
Proof.
  destruct (header_parse_ignores_tag (example_input x10) 0 ltac:(lia))
    as (_ & _ & H & _).
  apply H.
Defined.

(** C7, the counterexample. [decompress_lz77] has two parameters, the
    source and the offset, and none for a maximum: a block that declares 5
    bytes is decoded in full, so the call does not fail for a caller whose
    maximum is 4 or less. *)
Lemma size_limit_counterexample :
  (let* header := read_header (example_input x10) 0 in
   Return (Z.shiftr header 8)) = Return 5
  /\ decompress_lz77 (example_input x10) 0 = Return [x41; x41; x41; x41; x42].
Proof. split; vm_compute; reflexivity. Qed.

(** C7, amended. [decompress_lz77] takes no maximum size. Whenever the
    header can be read, the declared size is below [2^24], the output buffer
    is allocated with exactly that many zero bytes whatever the size is, and
    the call then returns that many bytes or raises [IndexError]. No call
    raises [SizeLimitExceededError]. *)
Theorem no_size_limit (data : list byte) (src_offset header : Z) :
  read_header data src_offset = Return header ->
  let size := Z.shiftr header 8 in
  0 <= size < 16777216
  /\ Py.bytearray size = replicate (Z.to_nat size) x00
  /\ Z.of_nat (length (Py.bytearray size)) = size
  /\ decode data src_offset
     = (let* st := while_loop (Z.to_nat size) data size
                     (State (src_offset + 4) 0 (Py.bytearray size)) in
        Return (size, st))
  /\ (decompress_lz77 data src_offset = Raise IndexError
      \/ exists out : list byte,
           decompress_lz77 data src_offset = Return out
           /\ Z.of_nat (length out) = size)
  /\ decompress_lz77 data src_offset <> Raise SizeLimitExceededError.
Proof.
  intros Hh size. pose proof (read_header_size_range _ _ _ Hh) as Hsz.
  fold size in Hsz.
  assert (decompress_lz77 data src_offset = Raise IndexError
          \/ exists out : list byte,
               decompress_lz77 data src_offset = Return out
               /\ Z.of_nat (length out) = size) as Hres.
  { destruct (decompress_cases data src_offset)
      as [[E _]|[E|(h & st & Hh' & _ & E & Hinv & _)]].
    - rewrite Hh in E. discriminate.
    - now left.
    - right. exists (out st). split; [exact E|].
      rewrite Hh in Hh'. injection Hh' as <-. apply Hinv. }
  splits; try lia; try reflexivity.
  - unfold Py.bytearray. rewrite length_replicate. lia.
  - apply (decode_unfold _ _ _ Hh).
  - exact Hres.
  - destruct Hres as [E|(out & E & _)]; rewrite E; discriminate.
Qed.

Lemma no_size_limit_witness :
  decompress_lz77 (example_input x10) 0 = Raise IndexError
  \/ exists out : list byte,
       decompress_lz77 (example_input x10) 0 = Return out
       /\ Z.of_nat (length out) = Z.shiftr (Py.u32_le x10 x05 x00 x00) 8.
Proof.
  destruct (no_size_limit (example_input x10) 0 (Py.u32_le x10 x05 x00 x00)
              eq_refl) as (_ & _ & _ & _ & H & _).
  exact H.
Defined.

(** * Further properties of the source file *)

Example script_example :
  script (Some example_rom)
  = Return (Report 32
              [(0, 1094795585); (4, 1094795585); (8, 1094795585);
               (12, 1094795585); (16, 1094795585); (20, 1094795585);
               (24, 1094795585); (28, 1094795585)]
              [] (-236)).
Proof. vm_compute. reflexivity. Qed.

(** ** The decoder: position, written bytes, references *)

(** X1. A block that decodes when it is the whole source decodes the same
    when it lies inside a larger source: the declared size, the cursor and
    the output are the same, and [s] is moved by the offset of the block.
    The bytes before and after the block play no part. *)
Theorem decode_position_independent
        (pre blk post : list byte) (size : Z) (st : state) :
  decode blk 0 = Return (size, st) ->
  decode (pre ++ blk ++ post) (Z.of_nat (length pre))
  = Return (size, shift (Z.of_nat (length pre)) st).
Proof.
  unfold decode.
  destruct (read_header blk 0) as [h| |] eqn:Hh; cbn [bind]; try discriminate.
  rewrite (read_header_frame _ _ _ _ Hh). cbn [bind]. cbv zeta.
  destruct (while_loop _ blk _ _) as [st1| |] eqn:E; cbn [bind]; try discriminate.
  intros [= <- <-].
  apply (while_loop_frame pre blk post) in E; [|cbn; lia].
  unfold shift at 1 in E. cbn [s d out] in E.
  replace (0 + 4 + Z.of_nat (length pre))
    with (Z.of_nat (length pre) + 4) in E by lia.
  rewrite E. reflexivity.
Qed.

Lemma decode_position_independent_witness :
  decode ([xaa; xbb] ++ example_input x10 ++ [xcc]) (Z.of_nat (length [xaa; xbb]))
  = Return (5, shift (Z.of_nat (length [xaa; xbb]))
                     (State 9 5 [x41; x41; x41; x41; x42])).
Proof.
  apply (decode_position_independent [xaa; xbb] (example_input x10) [xcc]).
  vm_compute. reflexivity.
Defined.

(** [st'] continues [st]: the invariant holds, the cursor has not moved
    back, and the bytes before the old cursor are the same. *)
Lemma copy_loop_keeps (n : nat) (size offset : Z) :
  forall (out : list byte) (d : Z),
  inv size out d ->
  post (copy_loop n size offset out d)
       (fun r => inv size (fst r) (snd r) /\ d <= snd r
                 /\ forall k : nat, Z.of_nat k < d -> fst r !! k = out !! k).
Proof.
  induction n as [|n IH]; intros out d Hinv; cbn [copy_loop].
  - cbn. splits; [assumption|lia|reflexivity].
  - destruct (Z.leb_spec size d) as [Hge|Hlt].
    + cbn. splits; [assumption|lia|reflexivity].
    + eapply post_bind; [apply post_getitem|]. intros b _. cbn beta.
      destruct (inv_write size out d b Hinv Hlt) as [-> Hinv'].
      cbn [bind]. eapply post_weaken; [apply IH, Hinv'|].
      cbn beta. intros r (H1 & H2 & H3). splits; [assumption|lia|].
      intros k Hk. rewrite H3 by lia.
      destruct Hinv as (_ & ? & _). apply list_lookup_insert_ne. lia.
Qed.

Lemma literal_unit_keeps (data : list byte) (size : Z) (st : state) :
  inv_state size st -> d st < size ->
  post (literal_unit data st)
       (fun st' => inv_state size st' /\ d st <= d st'
                   /\ forall k : nat, Z.of_nat k < d st ->
                                      out st' !! k = out st !! k).
Proof.
  intros Hinv Hlt. unfold literal_unit.
  eapply post_bind; [apply post_getitem|]. intros b _. cbn beta.
  destruct (inv_write size (out st) (d st) b Hinv Hlt) as [-> Hinv'].
  cbn. splits; [assumption|lia|].
  intros k Hk. destruct Hinv as (_ & ? & _). apply list_lookup_insert_ne. lia.
Qed.

Lemma reference_unit_keeps (data : list byte) (size : Z) (st : state) :
  inv_state size st ->
  post (reference_unit data size st)
       (fun st' => inv_state size st' /\ d st <= d st'
                   /\ forall k : nat, Z.of_nat k < d st ->
                                      out st' !! k = out st !! k).
Proof.
  intros Hinv. unfold reference_unit.
  eapply post_bind; [apply post_getitem|]. intros byte1 _. cbn beta.
  eapply post_bind; [apply post_getitem|]. intros byte2 _. cbn beta zeta.
  eapply post_bind; [apply copy_loop_keeps, Hinv|]. intros r Hr. exact Hr.
Qed.

Lemma bit_loop_keeps (n : nat) (data : list byte) (size flags : Z) :
  forall st : state,
  inv_state size st ->
  post (bit_loop n data size flags st)
       (fun st' => inv_state size st' /\ d st <= d st'
                   /\ forall k : nat, Z.of_nat k < d st ->
                                      out st' !! k = out st !! k).
Proof.
  induction n as [|n IH]; intros st Hinv; cbn [bit_loop].
  - cbn. splits; [assumption|lia|reflexivity].
  - destruct (Z.leb_spec size (d st)) as [Hge|Hlt].
    + cbn. splits; [assumption|lia|reflexivity].
    + eapply post_bind.
      * destruct (flag_set flags n);
          [apply reference_unit_keeps|apply literal_unit_keeps]; assumption.
      * cbn beta. intros st1 (Hinv1 & Hd1 & Hk1).
        eapply post_weaken; [apply IH, Hinv1|].
        cbn beta. intros st2 (Hinv2 & Hd2 & Hk2). splits; [assumption|lia|].
        intros k Hk. rewrite Hk2 by lia. apply Hk1, Hk.
Qed.

(** X2. Output bytes are written once. From a state that satisfies the
    loop invariant, whatever the eight units of a flag byte and the rest of
    the [while] loop do, the cursor does not move back and every byte before
    the cursor keeps its value. *)
Theorem written_bytes_never_change
        (data : list byte) (size : Z) (st : state) :
  inv_state size st ->
  (forall (n : nat) (flags : Z) (st' : state),
      bit_loop n data size flags st = Return st' ->
      d st <= d st' <= size
      /\ forall k : nat, Z.of_nat k < d st -> out st' !! k = out st !! k)
  /\ (forall (fuel : nat) (st' : state),
        while_loop fuel data size st = Return st' ->
        d st <= d st' <= size
        /\ forall k : nat, Z.of_nat k < d st -> out st' !! k = out st !! k).
Proof.
  intros Hinv. split.
  - intros n flags st' H.
    pose proof (bit_loop_keeps n data size flags st Hinv) as Hp.
    rewrite H in Hp. destruct Hp as ((_ & ? & _) & ? & Hk).
    split; [lia|exact Hk].
  - intros fuel st'. revert st Hinv.
    induction fuel as [|fuel IH]; intros st Hinv; cbn [while_loop];
      destruct (Z.ltb_spec (d st) size) as [Hlt|Hge]; try discriminate;
      try (intros [= <-]; destruct Hinv as (_ & ? & _); split; [lia|reflexivity]).
    pose proof (round_post data size st Hinv Hlt) as Hprog.
    assert (post (round data size st)
              (fun st1 => forall k : nat, Z.of_nat k < d st ->
                                          out st1 !! k = out st !! k)) as Hr.
    { unfold round. eapply post_bind; [apply post_getitem|]. intros f _.
      cbn beta. eapply post_weaken; [apply bit_loop_keeps; exact Hinv|].
      cbn. tauto. }
    destruct (round data size st) as [st1| |]; cbn [bind]; try discriminate.
    cbn in Hprog, Hr. destruct Hprog as (Hinv1 & Hd & _).
    intros H. destruct (IH st1 Hinv1 H) as [Hd2 Hk2]. split; [lia|].
    intros k Hk. rewrite Hk2 by lia. apply Hr, Hk.
Qed.

Lemma written_bytes_never_change_witness :
  1 <= 5 <= 5
  /\ forall k : nat, Z.of_nat k < 1 ->
                     [x41; x41; x41; x41; x42] !! k = [x41; x00; x00; x00; x00] !! k.
Proof.
  assert (inv_state 5 (State 6 1 [x41; x00; x00; x00; x00])) as Hinv.
  { unfold inv_state, inv, zero_from. cbn [out d length]. splits; try lia.
    intros [|[|[|[|[|k]]]]] b Hk Hb; try lia; try (now injection Hb as <-).
    now destruct k. }
  destruct (written_bytes_never_change (example_input x10) 5
              (State 6 1 [x41; x00; x00; x00; x00]) Hinv) as [H _].
  apply (H 7%nat 64 (State 9 5 [x41; x41; x41; x41; x42])).
  vm_compute. reflexivity.
Defined.

(** X3. A reference that lies in the written output and fits in the
    buffer repeats the last [dist] bytes: the byte written at [d + j] is the
    byte that was at [d - dist + j mod dist] before the copy. With
    [dist = 1] every byte written is the byte before the cursor (a run);
    with [n <= dist] the copy is the plain copy of [out[d-dist .. d-dist+n)]. *)
Theorem reference_repeats_period
        (n : nat) (size dist : Z) (out : list byte) (d : Z) :
  Z.of_nat (length out) = size ->
  1 <= dist <= d -> d + Z.of_nat n <= size ->
  exists out',
    copy_loop n size dist out d = Return (out', d + Z.of_nat n)
    /\ (forall j : Z, 0 <= j < Z.of_nat n ->
                      out' !! Z.to_nat (d + j)
                      = out !! Z.to_nat (d - dist + j mod dist))
    /\ (dist = 1 ->
        forall j : Z, 0 <= j < Z.of_nat n ->
                      out' !! Z.to_nat (d + j) = out !! Z.to_nat (d - 1))
    /\ (Z.of_nat n <= dist ->
        forall j : Z, 0 <= j < Z.of_nat n ->
                      out' !! Z.to_nat (d + j) = out !! Z.to_nat (d + j - dist)).
Proof.
  intros Hlen Hdist Hfit.
  destruct (copy_loop_in_range n size dist out d Hlen Hdist Hfit)
    as (out' & Hrun & _ & Hold & Hrec).
  exists out'. split; [exact Hrun|].
  assert (forall (m : nat) (j : Z),
             0 <= j < Z.of_nat n -> j < Z.of_nat m ->
             out' !! Z.to_nat (d + j)
             = out !! Z.to_nat (d - dist + j mod dist)) as Hper.
  { induction m as [|m IH]; intros j Hj Hm; [lia|].
    rewrite Hrec by lia.
    destruct (Z.ltb_spec j dist) as [Hsmall|Hbig].
    - rewrite Z.mod_small by lia. rewrite Hold by lia. f_equal. lia.
    - replace (d + j - dist) with (d + (j - dist)) by lia.
      rewrite IH by lia.
      replace (j - dist) with (j + (-1) * dist) by lia.
      rewrite Z.mod_add by lia. reflexivity. }
  splits.
  - intros j Hj. apply (Hper (S (Z.to_nat j))); lia.
  - intros -> j Hj. rewrite (Hper (S (Z.to_nat j))) by lia.
    rewrite Z.mod_1_r. f_equal. lia.
  - intros Hshort j Hj. rewrite (Hper (S (Z.to_nat j))) by lia.
    rewrite Z.mod_small by lia. f_equal. lia.
Qed.

Lemma reference_repeats_period_witness :
  exists out',
    copy_loop 5 8 2 [x41; x42; x00; x00; x00; x00; x00; x00] 2
    = Return (out', 2 + Z.of_nat 5)
    /\ (forall j : Z, 0 <= j < Z.of_nat 5 ->
                      out' !! Z.to_nat (2 + j)
                      = [x41; x42; x00; x00; x00; x00; x00; x00]
                          !! Z.to_nat (2 - 2 + j mod 2))
    /\ (2 = 1 ->
        forall j : Z, 0 <= j < Z.of_nat 5 ->
                      out' !! Z.to_nat (2 + j)
                      = [x41; x42; x00; x00; x00; x00; x00; x00] !! Z.to_nat (2 - 1))
    /\ (Z.of_nat 5 <= 2 ->
        forall j : Z, 0 <= j < Z.of_nat 5 ->
                      out' !! Z.to_nat (2 + j)
                      = [x41; x42; x00; x00; x00; x00; x00; x00]
                          !! Z.to_nat (2 + j - 2)).
Proof.
  apply (reference_repeats_period 5 8 2
           [x41; x42; x00; x00; x00; x00; x00; x00] 2);
    cbn; lia.
Defined.

Example period_two :
  copy_loop 5 8 2 [x41; x42; x00; x00; x00; x00; x00; x00] 2
  = Return ([x41; x42; x41; x42; x41; x42; x41; x00], 7).
Proof. vm_compute. reflexivity. Qed.

(** ** The decoder: literals *)

Lemma flag_set_zero (i : nat) : flag_set 0 i = false.
Proof. unfold flag_set. rewrite Z.land_0_l. reflexivity. Qed.

(** Literal units copy the source to the output byte for byte. When
    the [n] bits left of a flag byte are all clear, the units they select
    move [m = min n (size - d)] bytes from [data[s ..]] to [out[d ..]], in
    order, advance [s] and [d] by [m], and leave the rest of the output as
    it was. *)
Lemma bit_loop_literals (n : nat) (data : list byte) (size flags : Z) :
  forall st : state,
  (forall i : nat, (i < n)%nat -> flag_set flags i = false) ->
  Z.of_nat (length (out st)) = size ->
  0 <= d st <= size -> 0 <= s st ->
  s st + Z.min (Z.of_nat n) (size - d st) <= Z.of_nat (length data) ->
  exists out',
    bit_loop n data size flags st
    = Return (State (s st + Z.min (Z.of_nat n) (size - d st))
                    (d st + Z.min (Z.of_nat n) (size - d st)) out')
    /\ length out' = length (out st)
    /\ (forall j : Z, 0 <= j < Z.min (Z.of_nat n) (size - d st) ->
                      out' !! Z.to_nat (d st + j) = data !! Z.to_nat (s st + j))
    /\ (forall k : nat,
          Z.of_nat k < d st
          \/ d st + Z.min (Z.of_nat n) (size - d st) <= Z.of_nat k ->
          out' !! k = out st !! k).
Proof.
  induction n as [|n IH]; intros st Hflags Hlen Hd Hs Hsrc; cbn [bit_loop].
  - exists (out st). replace (Z.min (Z.of_nat 0) (size - d st)) with 0 by lia.
    rewrite !Z.add_0_r. destruct st; cbn. splits; auto. intros j Hj. lia.
  - destruct (Z.leb_spec size (d st)) as [Hge|Hlt].
    + exists (out st).
      replace (Z.min (Z.of_nat (S n)) (size - d st)) with 0 by lia.
      rewrite !Z.add_0_r. destruct st; cbn. splits; auto. intros j Hj. lia.
    + rewrite Hflags by lia. unfold literal_unit.
      destruct (getitem_nonneg data (s st)) as (b & Hb & ->); [lia|].
      cbn [bind]. rewrite setitem_in by lia. cbn [bind].
      destruct (IH (State (s st + 1) (d st + 1) (<[Z.to_nat (d st) := b]> (out st))))
        as (out' & Hrun & Hl & Hcopy & Hold); cbn [s d out].
      { intros i Hi. apply Hflags. lia. }
      { rewrite length_insert. exact Hlen. }
      { lia. }
      { lia. }
      { lia. }
      cbn [s d out] in Hrun, Hl, Hcopy, Hold.
      exists out'. rewrite Hrun. rewrite length_insert in Hl.
      replace (Z.min (Z.of_nat (S n)) (size - d st))
        with (1 + Z.min (Z.of_nat n) (size - (d st + 1))) by lia.
      splits.
      * f_equal. f_equal; lia.
      * exact Hl.
      * intros j Hj. destruct (Z.eq_dec j 0) as [->|Hne].
        -- rewrite !Z.add_0_r. rewrite Hold by lia.
           rewrite list_lookup_insert_eq by lia. now rewrite Hb.
        -- replace (d st + j) with (d st + 1 + (j - 1)) by lia.
           replace (s st + j) with (s st + 1 + (j - 1)) by lia.
           apply Hcopy. lia.
      * intros k Hk. rewrite Hold by lia. apply list_lookup_insert_ne. lia.
Qed.

(** The [while] loop over flag bytes that are all zero: [r] flag bytes
    have been consumed, so [d = 8 r] and [s = s0 + 9 r]. *)
Lemma while_loop_literals (fuel : nat) (data : list byte) (size s0 : Z) :
  forall (st : state) (r : Z),
  0 <= r -> 0 <= s0 ->
  d st = 8 * r -> s st = s0 + 9 * r ->
  Z.of_nat (length (out st)) = size -> d st <= size ->
  size - d st <= Z.of_nat fuel ->
  (forall k : Z, 0 <= k -> 8 * k < size ->
                 data !! Z.to_nat (s0 + 9 * k) = Some x00) ->
  s0 + size + (size + 7) / 8 <= Z.of_nat (length data) ->
  exists st',
    while_loop fuel data size st = Return st'
    /\ d st' = size
    /\ s st' = (if d st <? size then s0 + size + (size + 7) / 8 else s st)
    /\ length (out st') = length (out st)
    /\ (forall j : Z, d st <= j < size ->
                      out st' !! Z.to_nat j
                      = data !! Z.to_nat (s0 + 1 + j + j / 8))
    /\ (forall k : nat, Z.of_nat k < d st -> out st' !! k = out st !! k).
Proof.
  induction fuel as [|fuel IH];
    intros st r Hr Hs0 Hd Hs Hlen Hle Hfuel Hflags Hsrc; cbn [while_loop];
    destruct (Z.ltb_spec (d st) size) as [Hlt|Hge]; try lia;
    try (exists st; splits; try reflexivity; try lia; intros j Hj; lia).
  unfold round.
  destruct (getitem_nonneg data (s st)) as (f & Hf & ->).
  { Z.div_mod_to_equations. lia. }
  rewrite Hs, Hflags in Hf by lia. injection Hf as <-.
  cbn [bind]. change (Py.int x00) with 0.
  destruct (bit_loop_literals 8 data size 0 (State (s st + 1) (d st) (out st)))
    as (out1 & -> & Hl1 & Hcopy1 & Hold1); cbn [s d out]; try lia.
  { intros i _. apply flag_set_zero. }
  { Z.div_mod_to_equations. lia. }
  cbn [bind s d out] in *.
  set (m := Z.min (Z.of_nat 8) (size - d st)) in *.
  destruct (Z.ltb_spec (d st + m) size) as [Hmore|Hdone].
  - assert (m = 8) as Hm by lia.
    destruct (IH (State (s st + 1 + m) (d st + m) out1) (r + 1))
      as (st' & Hrun & Hd' & Hs' & Hl' & Hcopy' & Hold'); cbn [s d out];
      try lia; try assumption.
    cbn [s d out] in *. exists st'. rewrite Hrun.
    destruct (Z.ltb_spec (d st + m) size); [|lia].
    splits; try assumption; try lia; try reflexivity.
    + intros j Hj. destruct (Z.ltb_spec j (d st + m)) as [Hin|Hout].
      * rewrite <- (Z2Nat.id j) at 1 by lia. rewrite Nat2Z.id.
        rewrite Hold' by lia.
        replace j with (d st + (j - d st)) at 1 by lia.
        rewrite Hcopy1 by lia. f_equal.
        assert (j / 8 = r) as -> by (Z.div_mod_to_equations; lia). lia.
      * apply Hcopy'. lia.
    + intros k Hk. rewrite Hold' by lia. apply Hold1. lia.
  - exists (State (s st + 1 + m) (d st + m) out1).
    destruct fuel; cbn [while_loop s d out];
      (destruct (Z.ltb_spec (d st + m) size); [lia|]).
    all: splits; try reflexivity; try assumption; try lia;
      try (Z.div_mod_to_equations; lia).
    all: try (intros k Hk; apply Hold1; lia).
    all: intros j Hj; replace j with (d st + (j - d st)) at 1 by lia;
      rewrite Hcopy1 by lia; f_equal;
      assert (j / 8 = r) as -> by (Z.div_mod_to_equations; lia); lia.
Qed.

(** X4. A stream whose flag bytes are all zero is stored data. If, from
    the byte after the header on, every ninth byte is [0x00] for as long as
    output is due, and the source is long enough, the call returns and
    output byte [j] is the source byte at [src_offset + 5 + j + j / 8]: the
    literals in order, with the flag bytes skipped. The call consumes the
    header, [size] literals and one flag byte for every eight of them. *)
Theorem literal_only_stream (data : list byte) (src_offset header : Z) :
  0 <= src_offset ->
  read_header data src_offset = Return header ->
  let size := Z.shiftr header 8 in
  (forall k : Z, 0 <= k -> 8 * k < size ->
                 data !! Z.to_nat (src_offset + 4 + 9 * k) = Some x00) ->
  src_offset + 4 + size + (size + 7) / 8 <= Z.of_nat (length data) ->
  exists st : state,
    decode data src_offset = Return (size, st)
    /\ decompress_lz77 data src_offset = Return (out st)
    /\ s st = src_offset + 4 + size + (size + 7) / 8
    /\ Z.of_nat (length (out st)) = size
    /\ (forall j : Z, 0 <= j < size ->
                      out st !! Z.to_nat j
                      = data !! Z.to_nat (src_offset + 5 + j + j / 8)).
Proof.
  intros Hoff Hh size Hflags Hsrc.
  pose proof (read_header_size_range _ _ _ Hh) as [Hsz _]. fold size in Hsz.
  destruct (while_loop_literals (Z.to_nat size) data size (src_offset + 4)
              (initial_state src_offset size) 0)
    as (st & Hrun & Hd & Hs & Hl & Hcopy & _); cbn [initial_state s d out];
    try lia; try assumption.
  { unfold Py.bytearray. rewrite length_replicate. lia. }
  cbn [initial_state s d out] in Hs, Hl, Hcopy.
  exists st. unfold decompress_lz77. rewrite (decode_unfold _ _ _ Hh).
  cbv zeta. fold size. rewrite Hrun. cbn [bind snd].
  splits; try reflexivity.
  - destruct (Z.ltb_spec 0 size); [exact Hs|].
    assert (size = 0) as Hz by lia. rewrite Hs, Hz.
    change ((0 + 7) / 8) with 0. lia.
  - rewrite Hl. unfold Py.bytearray. rewrite length_replicate. lia.
  - intros j Hj. rewrite Hcopy by lia. f_equal. lia.
Qed.

Lemma literal_only_stream_witness :
  exists st : state,
    decode [x10; x03; x00; x00; x00; x41; x42; x43] 0
    = Return (Z.shiftr (Py.u32_le x10 x03 x00 x00) 8, st)
    /\ decompress_lz77 [x10; x03; x00; x00; x00; x41; x42; x43] 0
       = Return (out st)
    /\ s st = 0 + 4 + Z.shiftr (Py.u32_le x10 x03 x00 x00) 8
              + (Z.shiftr (Py.u32_le x10 x03 x00 x00) 8 + 7) / 8
    /\ Z.of_nat (length (out st)) = Z.shiftr (Py.u32_le x10 x03 x00 x00) 8
    /\ (forall j : Z, 0 <= j < Z.shiftr (Py.u32_le x10 x03 x00 x00) 8 ->
                      out st !! Z.to_nat j
                      = [x10; x03; x00; x00; x00; x41; x42; x43]
                          !! Z.to_nat (0 + 5 + j + j / 8)).
Proof.
  apply (literal_only_stream [x10; x03; x00; x00; x00; x41; x42; x43] 0
           (Py.u32_le x10 x03 x00 x00) ltac:(lia) eq_refl).
  - intros k Hk Hlt. change (Z.shiftr (Py.u32_le x10 x03 x00 x00) 8) with 3 in Hlt.
    assert (k = 0) as -> by lia. reflexivity.
  - vm_compute. discriminate.
Defined.

(** ** The decoder: how much source is consumed *)

Lemma reference_unit_ratio (data : list byte) (size : Z) (st : state) :
  inv_state size st -> d st < size ->
  post (reference_unit data size st)
       (fun st' => inv_state size st'
                   /\ s st' = s st + 2 /\ d st < d st' <= d st + 18).
Proof.
  intros Hinv Hlt. unfold reference_unit.
  eapply post_bind; [apply post_getitem|]. intros byte1 _. cbn beta.
  eapply post_bind; [apply post_getitem|]. intros byte2 _. cbn beta zeta.
  eapply post_bind; [apply copy_loop_post, Hinv|]. intros r [Hr Hd].
  cbn. pose proof (ref_length_range (Py.int byte1)).
  splits; [assumption|reflexivity|lia|lia].
Qed.

Lemma bit_loop_ratio (n : nat) (data : list byte) (size flags : Z) :
  forall st : state,
  inv_state size st ->
  post (bit_loop n data size flags st)
       (fun st' => inv_state size st'
                   /\ s st' - s st <= 2 * (d st' - d st)
                   /\ d st' - d st <= 9 * (s st' - s st)).
Proof.
  induction n as [|n IH]; intros st Hinv; cbn [bit_loop].
  - cbn. splits; [assumption|lia|lia].
  - destruct (Z.leb_spec size (d st)) as [Hge|Hlt].
    + cbn. splits; [assumption|lia|lia].
    + eapply post_bind with
        (Q := fun st' => inv_state size st'
                         /\ s st' - s st <= 2 * (d st' - d st)
                         /\ d st' - d st <= 9 * (s st' - s st)).
      * destruct (flag_set flags n).
        -- eapply post_weaken; [apply reference_unit_ratio; assumption|].
           cbn beta. intros st' (? & ? & ?). splits; [assumption|lia|lia].
        -- eapply post_weaken; [apply literal_unit_post; eassumption|].
           cbn beta. intros st' (? & ? & ?). splits; [assumption|lia|lia].
      * intros st1 (Hinv1 & H1 & H2).
        eapply post_weaken; [apply IH, Hinv1|].
        cbn beta. intros st2 (? & ? & ?). splits; [assumption|lia|lia].
Qed.

Lemma while_loop_ratio (fuel : nat) (data : list byte) (size : Z) :
  forall st : state,
  inv_state size st -> size - d st <= Z.of_nat fuel ->
  post (while_loop fuel data size st)
       (fun st' => d st' = size
                   /\ s st' - s st <= 3 * (d st' - d st)
                   /\ d st' - d st <= 9 * (s st' - s st)).
Proof.
  induction fuel as [|fuel IH]; intros st Hinv Hfuel; cbn [while_loop];
    destruct (Z.ltb_spec (d st) size) as [Hlt|Hge]; try lia;
    try (cbn; destruct Hinv as (_ & ? & _); lia).
  eapply post_bind with
    (Q := fun st' => inv_state size st' /\ d st < d st'
                     /\ s st' - s st <= 3 * (d st' - d st)
                     /\ d st' - d st <= 9 * (s st' - s st)).
  - pose proof (round_post data size st Hinv Hlt) as Hprog. unfold round in *.
    destruct (Py.getitem data (s st)) as [f| |]; cbn [bind] in *;
      try assumption.
    pose proof (bit_loop_ratio 8 data size (Py.int f)
                  (State (s st + 1) (d st) (out st)) Hinv) as Hr.
    destruct (bit_loop 8 data size (Py.int f) _) as [st1| |];
      cbn [post] in *; try assumption.
    cbn [s d out] in Hr. destruct Hprog as (_ & ? & _).
    destruct Hr as (? & ? & ?). splits; [assumption|lia..].
  - intros st1 (Hinv1 & Hd1 & H1 & H2).
    eapply post_weaken; [apply IH; [assumption|lia]|].
    cbn beta. intros st2 (? & ? & ?). lia.
Qed.

(** X5. A call that returns has consumed, after the header, at most
    three source bytes for every output byte and at least one source byte
    for every nine output bytes. So, at an offset that is not negative, a
    source cannot decode to more than nine times the number of bytes that
    follow the header. *)
Theorem consumed_source_bounds
        (data : list byte) (src_offset size : Z) (st : state) :
  decode data src_offset = Return (size, st) ->
  s st - (src_offset + 4) <= 3 * size
  /\ size <= 9 * (s st - (src_offset + 4))
  /\ (0 <= src_offset ->
      src_offset + 4 <= Z.of_nat (length data)
      /\ size <= 9 * (Z.of_nat (length data) - (src_offset + 4))).
Proof.
  intros H. pose proof (decode_s_bound _ _ _ _ H) as [Hlo Hend].
  destruct (decode_cases data src_offset)
    as [[_ E]|[E|(h & st' & Hh & E & _)]]; rewrite E in H; try discriminate.
  injection H as <- <-.
  pose proof (read_header_size_range _ _ _ Hh) as [Hsz _].
  rewrite (decode_unfold _ _ _ Hh) in E. cbv zeta in E.
  pose proof (while_loop_ratio (Z.to_nat (Z.shiftr h 8)) data (Z.shiftr h 8)
                (initial_state src_offset (Z.shiftr h 8))
                (initial_state_inv _ _ Hsz)) as Hp.
  cbn [initial_state s d out] in Hp. specialize (Hp ltac:(lia)).
  destruct (while_loop _ _ _ _) as [st1| |]; cbn [bind] in E; try discriminate.
  injection E as <-. cbn in Hp. lia.
Qed.

Lemma consumed_source_bounds_witness :
  9 - (0 + 4) <= 3 * 5
  /\ 5 <= 9 * (9 - (0 + 4))
  /\ (0 <= 0 ->
      0 + 4 <= Z.of_nat (length (example_input x10))
      /\ 5 <= 9 * (Z.of_nat (length (example_input x10)) - (0 + 4))).
Proof.
  apply (consumed_source_bounds (example_input x10) 0 5
           (State 9 5 [x41; x41; x41; x41; x42])).
  vm_compute. reflexivity.
Defined.

(** ** The decoder: negative offsets *)

(** Decoding from [dst] simulates decoding from [src0] when every byte
    that can be read from [src0] at [i >= 0] can be read from [dst] at
    [i + base]. *)
Section Relocate.
Variables (src0 dst : list byte) (base : Z).
Hypothesis Hget :
  forall (i : Z) (b : byte),
    0 <= i -> Py.getitem src0 i = Return b -> Py.getitem dst (i + base) = Return b.

Lemma literal_unit_relocate (st st' : state) :
  0 <= s st -> literal_unit src0 st = Return st' ->
  literal_unit dst (shift base st) = Return (shift base st').
Proof.
  intros Hs. unfold literal_unit, shift. cbn [s d out].
  destruct (Py.getitem src0 (s st)) as [b| |] eqn:E; cbn [bind]; try discriminate.
  rewrite (Hget _ _ Hs E). cbn [bind].
  destruct (Py.setitem (out st) (d st) b); cbn [bind]; try discriminate.
  intros [= <-]. cbn [s d out].
  now replace (s st + 1 + base) with (s st + base + 1) by lia.
Qed.

Lemma reference_unit_relocate (size : Z) (st st' : state) :
  0 <= s st -> reference_unit src0 size st = Return st' ->
  reference_unit dst size (shift base st) = Return (shift base st').
Proof.
  intros Hs. unfold reference_unit, shift. cbn [s d out].
  destruct (Py.getitem src0 (s st)) as [b1| |] eqn:E1; cbn [bind]; try discriminate.
  destruct (Py.getitem src0 (s st + 1)) as [b2| |] eqn:E2; cbn [bind]; try discriminate.
  rewrite (Hget _ _ Hs E1). cbn [bind].
  replace (s st + base + 1) with (s st + 1 + base) by lia.
  rewrite (Hget (s st + 1) b2) by (lia || assumption). cbn [bind].
  cbv zeta. destruct (copy_loop _ _ _ _ _); cbn [bind]; try discriminate.
  intros [= <-]. cbn [s d out fst snd].
  now replace (s st + 2 + base) with (s st + base + 2) by lia.
Qed.

Lemma bit_loop_relocate (n : nat) (size flags : Z) :
  forall st st' : state,
  0 <= s st -> bit_loop n src0 size flags st = Return st' ->
  bit_loop n dst size flags (shift base st) = Return (shift base st')
  /\ 0 <= s st'.
Proof.
  induction n as [|n IH]; intros st st' Hs; cbn [bit_loop].
  - intros [= <-]. auto.
  - change (d (shift base st)) with (d st).
    destruct (Z.leb_spec size (d st)); [intros [= <-]; auto|].
    destruct (flag_set flags n).
    + destruct (reference_unit src0 size st) as [st1| |] eqn:E;
        cbn [bind]; try discriminate.
      rewrite (reference_unit_relocate _ _ _ Hs E). cbn [bind].
      apply reference_unit_s in E. apply IH. lia.
    + destruct (literal_unit src0 st) as [st1| |] eqn:E;
        cbn [bind]; try discriminate.
      rewrite (literal_unit_relocate _ _ Hs E). cbn [bind].
      apply literal_unit_s in E. apply IH. lia.
Qed.

Lemma while_loop_relocate (fuel : nat) (size : Z) :
  forall st st' : state,
  0 <= s st -> while_loop fuel src0 size st = Return st' ->
  while_loop fuel dst size (shift base st) = Return (shift base st').
Proof.
  induction fuel as [|fuel IH]; intros st st' Hs; cbn [while_loop];
    change (d (shift base st)) with (d st);
    destruct (Z.ltb_spec (d st) size); try discriminate;
    try (now intros [= <-]).
  unfold round. change (s (shift base st)) with (s st + base).
  change (out (shift base st)) with (out st).
  change (d (shift base st)) with (d st).
  destruct (Py.getitem src0 (s st)) as [f| |] eqn:E; cbn [bind]; try discriminate.
  rewrite (Hget _ _ Hs E). cbn [bind].
  destruct (bit_loop 8 src0 size (Py.int f) _) as [st1| |] eqn:Eb;
    cbn [bind]; try discriminate.
  apply bit_loop_relocate in Eb; [|cbn; lia]. destruct Eb as [Eb Hs1].
  unfold shift at 1 in Eb. cbn [s d out] in Eb.
  replace (s st + 1 + base) with (s st + base + 1) in Eb by lia.
  rewrite Eb. cbn [bind]. now apply IH.
Qed.
End Relocate.

Lemma getitem_from_end (data : list byte) (i : Z) (b : byte) :
  0 <= i -> Py.getitem data i = Return b ->
  Py.getitem data (i + - Z.of_nat (length data)) = Return b.
Proof.
  intros Hi Hb. pose proof (getitem_Return _ _ _ Hb) as Hlt.
  destruct (getitem_nonneg data i) as (x & Hx & Hx'); [lia|].
  rewrite Hx' in Hb. injection Hb as ->.
  destruct (getitem_neg data (i + - Z.of_nat (length data)))
    as (y & Hy & ->); [lia|].
  replace (Z.of_nat (length data) + (i + - Z.of_nat (length data)))
    with i in Hy by lia.
  congruence.
Qed.

Lemma slice_from_end (data : list byte) (src_offset : Z) :
  - Z.of_nat (length data) <= src_offset <= -5 ->
  Py.slice data src_offset (src_offset + 4)
  = Py.slice data (Z.of_nat (length data) + src_offset)
             (Z.of_nat (length data) + src_offset + 4).
Proof.
  intros H. unfold Py.slice, Py.clamp.
  destruct (Z.ltb_spec src_offset 0); [|lia].
  destruct (Z.ltb_spec (src_offset + 4) 0); [|lia].
  destruct (Z.ltb_spec (Z.of_nat (length data) + src_offset) 0); [lia|].
  destruct (Z.ltb_spec (Z.of_nat (length data) + src_offset + 4) 0); [lia|].
  f_equal; [|f_equal]; lia.
Qed.

Lemma slice_negative_short (data : list byte) (src_offset : Z) :
  src_offset < 0 ->
  src_offset < - Z.of_nat (length data) \/ -4 <= src_offset ->
  (length (Py.slice data src_offset (src_offset + 4)) < 4)%nat.
Proof.
  intros Hneg H. unfold Py.slice, Py.clamp.
  rewrite length_take, length_drop.
  destruct (Z.ltb_spec src_offset 0); [|lia].
  destruct (Z.ltb_spec (src_offset + 4) 0); lia.
Qed.

(** X6. A negative offset is taken as Python takes it. From [-4] to [-1],
    and below [-len(data)], the slice for the header has fewer than four
    bytes and the call raises [struct.error], however long the source is.
    From [-len(data)] to [-5] the offset counts from the end: the header is
    the one at [len(data) + src_offset], and when the call at that offset
    returns, the call at the negative offset returns the same, with [s]
    lower by [len(data)]. *)
Theorem negative_offset (data : list byte) (src_offset : Z) :
  src_offset < 0 ->
  (src_offset < - Z.of_nat (length data) \/ -4 <= src_offset ->
   decompress_lz77 data src_offset = Raise StructError)
  /\ (- Z.of_nat (length data) <= src_offset <= -5 ->
      read_header data src_offset
      = read_header data (Z.of_nat (length data) + src_offset)
      /\ (forall (size : Z) (st : state),
            decode data (Z.of_nat (length data) + src_offset) = Return (size, st) ->
            decode data src_offset
            = Return (size, shift (- Z.of_nat (length data)) st))
      /\ (forall res : list byte,
            decompress_lz77 data (Z.of_nat (length data) + src_offset) = Return res ->
            decompress_lz77 data src_offset = Return res)).
Proof.
  intros Hneg. split.
  - intros H. pose proof (slice_negative_short data src_offset Hneg H) as Hlen.
    destruct (read_header_cases data src_offset)
      as [[_ E]|(b0 & b1 & b2 & b3 & Hs & _)].
    + unfold decompress_lz77, decode. rewrite E. reflexivity.
    + rewrite Hs in Hlen. cbn [length] in Hlen. lia.
  - intros Hin.
    assert (read_header data src_offset
            = read_header data (Z.of_nat (length data) + src_offset)) as Hh.
    { unfold read_header. now rewrite slice_from_end. }
    assert (forall (size : Z) (st : state),
               decode data (Z.of_nat (length data) + src_offset) = Return (size, st) ->
               decode data src_offset
               = Return (size, shift (- Z.of_nat (length data)) st)) as Hdec.
    { intros size st. unfold decode. rewrite Hh.
      destruct (read_header data (Z.of_nat (length data) + src_offset))
        as [h| |]; cbn [bind]; try discriminate.
      cbv zeta.
      destruct (while_loop (Z.to_nat (Z.shiftr h 8)) data (Z.shiftr h 8)
                  (State (Z.of_nat (length data) + src_offset + 4) 0
                         (Py.bytearray (Z.shiftr h 8))))
        as [st1| |] eqn:E; cbn [bind]; try discriminate.
      intros [= <- <-].
      apply (while_loop_relocate data data (- Z.of_nat (length data))
               (getitem_from_end data)) in E; [|cbn; lia].
      unfold shift at 1 in E. cbn [s d out] in E.
      replace (Z.of_nat (length data) + src_offset + 4 + - Z.of_nat (length data))
        with (src_offset + 4) in E by lia.
      rewrite E. reflexivity. }
    splits; [exact Hh|exact Hdec|].
    intros res. unfold decompress_lz77.
    destruct (decode data (Z.of_nat (length data) + src_offset))
      as [[size st]| |] eqn:E; cbn [bind]; try discriminate.
    rewrite (Hdec _ _ eq_refl). cbn. auto.
Qed.

Lemma negative_offset_witness :
  decompress_lz77 ([xaa] ++ example_input x10) (-4) = Raise StructError.
Proof.
  apply (negative_offset ([xaa] ++ example_input x10) (-4) ltac:(lia)).
  right. lia.
Defined.

Example negative_offset_from_end :
  decompress_lz77 ([xaa] ++ example_input x10) (-9)
  = Return [x41; x41; x41; x41; x42].
Proof. vm_compute. reflexivity. Qed.

(** ** The script: the words it prints *)

Lemma read_header_value (bs : list byte) (i : Z) :
  0 <= i -> i + 4 <= Z.of_nat (length bs) ->
  exists v, read_header bs i = Return v /\ word_at bs i v.
Proof.
  intros Hi Hfull. pose proof (slice_header_length bs i Hi) as Hlen.
  destruct (read_header_cases bs i)
    as [[Hne _]|(b0 & b1 & b2 & b3 & Hs & E)]; [lia|].
  exists (Py.u32_le b0 b1 b2 b3). split; [exact E|].
  assert (forall (j : nat) (b : byte),
             [b0; b1; b2; b3] !! j = Some b ->
             bs !! Z.to_nat (i + Z.of_nat j) = Some b) as Hbyte.
  { intros j b Hj. rewrite <- Hs in Hj. unfold Py.slice, Py.clamp in Hj.
    destruct (Z.ltb_spec i 0); [lia|].
    apply lookup_take_Some in Hj as [Hj _]. rewrite lookup_drop in Hj.
    rewrite <- Hj. f_equal. lia. }
  exists b0, b1, b2, b3. splits.
  - rewrite <- (Z.add_0_r i). now apply (Hbyte 0%nat).
  - now apply (Hbyte 1%nat).
  - now apply (Hbyte 2%nat).
  - now apply (Hbyte 3%nat).
  - apply u32_le_value.
Qed.

Lemma read_header_short (bs : list byte) (i : Z) :
  0 <= i -> Z.of_nat (length bs) < i + 4 ->
  read_header bs i = Raise StructError.
Proof.
  intros Hi Hshort. pose proof (slice_header_length bs i Hi) as Hlen.
  destruct (read_header_cases bs i)
    as [[_ E]|(b0 & b1 & b2 & b3 & Hs & _)]; [exact E|].
  rewrite Hs in Hlen. cbn [length] in Hlen. lia.
Qed.

(** A loop whose body returns on every element returns, with one value
    per element. *)
Lemma for_each_Forall2 {A B : Type} (f : A -> outcome B) (P : A -> B -> Prop)
      (l : list A) :
  Forall (fun x => exists y, f x = Return y /\ P x y) l ->
  exists ys, for_each f l = Return ys /\ Forall2 P l ys.
Proof.
  induction 1 as [|x l (y & Hy & HP) _ (ys & Hys & Hall)]; cbn [for_each].
  - exists []. split; [reflexivity|constructor].
  - exists (y :: ys). rewrite Hy. cbn [bind]. rewrite Hys. cbn [bind].
    split; [reflexivity|now constructor].
Qed.

Lemma range_lookup (start stop step : Z) (k : nat) (x : Z) :
  0 < step ->
  Py.range start stop step !! k = Some x ->
  x = start + step * Z.of_nat k /\ start <= x < stop.
Proof.
  intros Hstep H. unfold Py.range in H. rewrite list_lookup_fmap in H.
  destruct (seq 0 _ !! k) as [j|] eqn:E; [|discriminate].
  apply lookup_seq in E as [-> Hk]. injection H as <-. cbn [Nat.add].
  split; [reflexivity|].
  assert (Z.of_nat k < (stop - start + step - 1) / step) as Hq by lia.
  Z.div_mod_to_equations. nia.
Qed.

Lemma range_length (start stop step : Z) :
  length (Py.range start stop step)
  = Z.to_nat ((stop - start + step - 1) / step).
Proof. unfold Py.range. now rewrite length_fmap, length_seq. Qed.

Lemma first_words_short (decompressed : list byte) :
  Z.of_nat (length decompressed) < 32 ->
  first_words decompressed = Raise StructError.
Proof.
  intros Hshort. unfold first_words.
  change (Py.range 0 32 4) with [0; 4; 8; 12; 16; 20; 24; 28].
  cbn [for_each].
  repeat match goal with
         | |- context [read_header decompressed ?i] =>
             destruct (Z.le_gt_cases (i + 4) (Z.of_nat (length decompressed)));
             [destruct (read_header_value decompressed i) as (? & -> & _);
              [lia|assumption|]; cbn [bind]
             |rewrite (read_header_short decompressed i) by lia; reflexivity]
         end.
  lia.
Qed.



(** X7. The loop over the first 32 bytes needs 32 bytes. When the output
    has at least 32 bytes it prints eight words, at the offsets 0, 4, ...,
    28, each the little-endian value of the four output bytes at its
    offset. When the output is shorter the loop raises [struct.error]: the
    script cannot finish on a block that declares fewer than 32 bytes. *)
Theorem first_words_needs_32_bytes (decompressed : list byte) :
  (32 <= Z.of_nat (length decompressed) ->
   exists ws,
     first_words decompressed = Return ws
     /\ fst <$> ws = [0; 4; 8; 12; 16; 20; 24; 28]
     /\ forall (k : nat) (i v : Z),
          ws !! k = Some (i, v) -> word_at decompressed i v)
  /\ (Z.of_nat (length decompressed) < 32 ->
      first_words decompressed = Raise StructError).
Proof.
  unfold first_words.
  change (Py.range 0 32 4) with [0; 4; 8; 12; 16; 20; 24; 28].
  split.
  - intros Hlen.
    destruct (for_each_Forall2
                (fun i => let* val := read_header decompressed i in Return (i, val))
                (fun i p => fst p = i /\ word_at decompressed i (snd p))
                [0; 4; 8; 12; 16; 20; 24; 28]) as (ws & -> & Hall).
    { repeat constructor;
        match goal with
        | |- exists y, (let* val := read_header _ ?i in _) = _ /\ _ =>
            destruct (read_header_value decompressed i) as (v & -> & Hv);
            [lia|lia|]; exists (i, v); cbn; auto
        end. }
    exists ws. splits; [reflexivity| |].
    + clear Hlen. revert Hall.
      generalize [0; 4; 8; 12; 16; 20; 24; 28].
      intros l Hall. induction Hall as [|i p l ws [Hp _] _ IH]; [reflexivity|].
      cbn. now rewrite Hp, IH.
    + intros k i v Hk.
      destruct (Forall2_lookup_r _ _ _ _ _ Hall Hk) as (i' & _ & Hi & Hw).
      cbn in Hi, Hw. now subst i'.
  - unfold first_words in *. apply first_words_short.
Qed.

Lemma first_words_needs_32_bytes_witness :
  first_words [x41; x42; x43; x44; x45] = Raise StructError.
Proof.
  apply (first_words_needs_32_bytes [x41; x42; x43; x44; x45]). cbn. lia.
Defined.

(** X8. The loop over the palette area never raises. It prints a word
    for each offset 0x10c, 0x110, ... below [min (0x10c + 32) len], so at
    most eight and none when the output has 0x10c bytes or fewer; a word
    that lies in the output is its little-endian value, and a last word
    that the output holds only in part is printed as 0. *)
Theorem palette_words_never_raise (decompressed : list byte) :
  exists ws,
    palette_words decompressed = Return ws
    /\ length ws
       = Z.to_nat ((Z.min 300 (Z.of_nat (length decompressed)) - 268 + 3) / 4)
    /\ (length ws <= 8)%nat
    /\ (Z.of_nat (length decompressed) <= 268 -> ws = [])
    /\ forall (k : nat) (i v : Z),
         ws !! k = Some (i, v) ->
         i = 268 + 4 * Z.of_nat k
         /\ 268 <= i < Z.of_nat (length decompressed)
         /\ (i + 4 <= Z.of_nat (length decompressed) -> word_at decompressed i v)
         /\ (Z.of_nat (length decompressed) < i + 4 -> v = 0).
Proof.
  unfold palette_words. cbv zeta. change (268 + 32) with 300.
  set (len := Z.of_nat (length decompressed)).
  set (f := fun i => let* val := (if i + 4 <=? len
                                  then read_header decompressed i
                                  else Return 0) in Return (i, val)).
  set (P := fun (i : Z) (p : Z * Z) =>
              fst p = i
              /\ (i + 4 <= len -> word_at decompressed i (snd p))
              /\ (len < i + 4 -> snd p = 0)).
  destruct (for_each_Forall2 f P (Py.range 268 (Z.min 300 len) 4))
    as (ws & Hrun & Hall).
  { apply Forall_lookup. intros k i Hk.
    apply range_lookup in Hk as [_ Hi]; [|lia]. unfold f, P.
    destruct (Z.leb_spec (i + 4) len) as [Hfull|Hpart].
    - destruct (read_header_value decompressed i) as (v & -> & Hv);
        [lia|exact Hfull|].
      exists (i, v). cbn. splits; auto. lia.
    - exists (i, 0). cbn. splits; auto. lia. }
  exists ws. split; [exact Hrun|].
  pose proof (Forall2_length _ _ _ Hall) as Hlen.
  rewrite range_length in Hlen.
  replace (Z.min 300 len - 268 + 4 - 1) with (Z.min 300 len - 268 + 3)
    in Hlen by lia.
  assert (length ws <= 8)%nat as Hle.
  { rewrite <- Hlen. assert ((Z.min 300 len - 268 + 3) / 4 <= 8); [|lia].
    Z.div_mod_to_equations. lia. }
  splits; [now symmetry|exact Hle| |].
  - intros Hshort. apply length_zero_iff_nil. rewrite <- Hlen.
    assert ((Z.min 300 len - 268 + 3) / 4 <= 0); [|lia].
    Z.div_mod_to_equations. lia.
  - intros k i v Hk.
    destruct (Forall2_lookup_r _ _ _ _ _ Hall Hk) as (i' & Hr & Hi & Hw & Hz).
    cbn in Hi, Hw, Hz. subst i'.
    apply range_lookup in Hr as [Hi Hin]; [|lia].
    splits; [exact Hi|lia|lia|exact Hw|exact Hz].
Qed.

Example palette_words_partial :
  palette_words (replicate 268 x00 ++ [x01; x02; x03; x04; x05; x06])
  = Return [(268, 67305985); (272, 0)].
Proof. vm_compute. reflexivity. Qed.

(** ** The script as a whole *)


